(** * Key-derivation scripts of the doko repository

    A shallow embedding of the Python scripts that turn a BIP39 mnemonic
    into Bitcoin keys ([derive_keys.py], [create_descriptors.py],
    [create_valid_descriptors.py], [misc/recovery/fix_keys.py],
    [misc/recovery/import_keys.py]) and the properties the specification
    states about them.

    Conventions.  A Python [str] is a [string] (the bytes of the text; every
    string the scripts inspect is ASCII), a Python [bytes] is a [list byte],
    Python integers are [Z].  A call that can raise returns a [result].  The
    third-party packages the scripts import ([hashlib], [hmac], [mnemonic],
    [bip32utils], [subprocess], [json]) are parameters of the development;
    [base58] is modelled concretely. *)

From Stdlib Require Import ZArith NArith List String Ascii Lia Bool DecimalString.
From Stdlib Require Import DecimalFacts DecimalNat.
From Stdlib.Strings Require Import Byte.
From stdpp Require Import base option list gmap strings.

Local Open Scope Z_scope.

Abbreviation bytes := (list byte).

(** ** Python values and builtins used by the scripts *)

Module Py.

(** The exceptions that can escape the functions modelled here. *)
Inductive exn : Type :=
| ValueError       (* int() on text that is no integer literal *)
| AttributeError   (* attribute access on None *)
| LibraryError     (* anything a third-party call raises itself *)
| InvalidChildKey. (* the specification's error of child derivation *)

Inductive result (A : Type) : Type :=
| Ok (a : A)
| Raise (e : exn).
Arguments Ok {A} a.
Arguments Raise {A} e.

Definition bind {A B} (r : result A) (f : A -> result B) : result B :=
  match r with
  | Ok a => f a
  | Raise e => Raise e
  end.

Definition rmap {A B} (f : A -> B) (r : result A) : result B :=
  bind r (fun a => Ok (f a)).

(** [s.startswith(p)] *)
Fixpoint startswith (s p : string) : bool :=
  match p, s with
  | EmptyString, _ => true
  | String a p', String b s' => Ascii.eqb a b && startswith s' p'
  | String _ _, EmptyString => false
  end.

(** [s.endswith(suf)]: some tail of [s] is [suf]. *)
Fixpoint endswith (s suf : string) : bool :=
  String.eqb s suf ||
  match s with
  | EmptyString => false
  | String _ s' => endswith s' suf
  end.

(** [s[:-1]] *)
Fixpoint drop_last (s : string) : string :=
  match s with
  | EmptyString => EmptyString
  | String _ EmptyString => EmptyString
  | String c s' => String c (drop_last s')
  end.

(** [s[n:]] *)
Fixpoint drop_first (n : nat) (s : string) : string :=
  match n, s with
  | O, _ => s
  | S n', String _ s' => drop_first n' s'
  | S _, EmptyString => EmptyString
  end.

(** [s.split(sep)] for a one-character separator: never the empty list,
    empty fields are kept. *)
Fixpoint split (sep : ascii) (s : string) : list string :=
  match s with
  | EmptyString => [EmptyString]
  | String c s' =>
      if Ascii.eqb c sep then EmptyString :: split sep s'
      else match split sep s' with
           | field :: fields => String c field :: fields
           | [] => [String c EmptyString]
           end
  end.

(** [sep.join(fields)] *)
Fixpoint join (sep : ascii) (fields : list string) : string :=
  match fields with
  | [] => EmptyString
  | [field] => field
  | field :: rest => field +:+ String sep (join sep rest)
  end.

(** *** White space

    Text is ASCII text here.  On ASCII text the methods of [str] take the
    characters 9 to 13 and 28 to 32 for white space ([str.isspace]); the
    methods of [bytes], and [int] reading an ASCII text, take 9 to 13 and
    32 only (C's [isspace]): [int] skips no character 28 to 31. *)

Definition is_space (c : ascii) : bool :=
  let n := N_of_ascii c in
  ((9 <=? n) && (n <=? 13) || (n =? 32))%N.

Definition is_str_space (c : ascii) : bool :=
  let n := N_of_ascii c in
  ((9 <=? n) && (n <=? 13) || (28 <=? n) && (n <=? 32))%N.

(** [text.isascii()] *)
Fixpoint isascii (s : string) : bool :=
  match s with
  | EmptyString => true
  | String c s' => (N_of_ascii c <? 128)%N && isascii s'
  end.

(** The white space [int] skips before and behind the number. *)
Fixpoint lstrip (s : string) : string :=
  match s with
  | String c s' => if is_space c then lstrip s' else s
  | EmptyString => EmptyString
  end.

Fixpoint rstrip (s : string) : string :=
  match s with
  | EmptyString => EmptyString
  | String c s' =>
      match rstrip s' with
      | EmptyString => if is_space c then EmptyString else String c EmptyString
      | t => String c t
      end
  end.

Definition strip (s : string) : string := rstrip (lstrip s).

(** [text.rstrip()] for a [str] *)
Fixpoint str_rstrip (s : string) : string :=
  match s with
  | EmptyString => EmptyString
  | String c s' =>
      match str_rstrip s' with
      | EmptyString => if is_str_space c then EmptyString else String c EmptyString
      | t => String c t
      end
  end.

(** *** [int(text)] in base ten

    White space before and behind is skipped, one sign is allowed, and the
    digits may be separated by single underscores.  Text with more than
    4300 digits is refused (CPython's default limit on the conversion,
    [sys.get_int_max_str_digits()]).  On text that is not ASCII, CPython
    also reads the decimal digits and the blanks of other scripts; here
    such text is refused, so what [int] accepts here is ASCII text, and
    there the two agree. *)

Definition digit_of (c : ascii) : option Z :=
  let n := Z.of_N (N_of_ascii c) in
  if (48 <=? n) && (n <=? 57) then Some (n - 48) else None.

(** The digits after the first one, [acc] being the value read so far. *)
Fixpoint int_digits (s : string) (acc : Z) : option Z :=
  match s with
  | EmptyString => Some acc
  | String c s' =>
      match digit_of c with
      | Some d => int_digits s' (10 * acc + d)
      | None =>
          if Ascii.eqb c "_" then
            match s' with
            | String c' s'' =>
                match digit_of c' with
                | Some d => int_digits s'' (10 * acc + d)
                | None => None
                end
            | EmptyString => None
            end
          else None
      end
  end.

Definition int_body (s : string) : option Z :=
  match s with
  | String c s' =>
      match digit_of c with
      | Some d => int_digits s' d
      | None => None
      end
  | EmptyString => None
  end.

Definition max_str_digits : Z := 4300.

Fixpoint digit_count (s : string) : Z :=
  match s with
  | EmptyString => 0
  | String c s' =>
      match digit_of c with
      | Some _ => 1
      | None => 0
      end + digit_count s'
  end.

Definition int (text : string) : result Z :=
  let s := strip text in
  let v := match s with
           | String c s' =>
               if Ascii.eqb c "+" then int_body s'
               else if Ascii.eqb c "-" then Z.opp <$> int_body s'
               else int_body s
           | EmptyString => None
           end in
  match v with
  | Some n => if max_str_digits <? digit_count s then Raise ValueError else Ok n
  | None => Raise ValueError
  end.

(** [str(n)] for a natural number, as an f-string prints a loop index. *)
Definition str (n : nat) : string := NilZero.string_of_uint (Nat.to_uint n).

(** [text.encode()] *)
Definition encode (text : string) : bytes := list_byte_of_string text.

(** [int.from_bytes(v, 'big')] *)
Definition int_from_bytes (v : bytes) : N :=
  fold_left (fun acc b => (acc * 256 + Byte.to_N b)%N) v 0%N.

Definition byte_of_N (n : N) : byte := default x00 (Byte.of_N n).

(** [n.to_bytes(len, 'big')], for an [n] that fits [len] bytes (the only
    way it is called here); higher bytes are cut off. *)
Fixpoint to_bytes (len : nat) (n : N) : bytes :=
  match len with
  | O => []
  | S len' => to_bytes len' (n / 256)%N ++ [byte_of_N (n mod 256)%N]
  end.

(** [n.bit_length()] *)
Definition bit_length (n : N) : N := N.size n.

(** [v.lstrip(c)] on bytes and on text, for a single [c]. *)
Fixpoint lstrip_byte (c : byte) (v : bytes) : bytes :=
  match v with
  | b :: v' => if Byte.eqb b c then lstrip_byte c v' else v
  | [] => []
  end.

Fixpoint lstrip_char (c : ascii) (s : string) : string :=
  match s with
  | String a s' => if Ascii.eqb a c then lstrip_char c s' else s
  | EmptyString => EmptyString
  end.

(** [c * n] for a one-character string [c] *)
Fixpoint repeat_char (c : ascii) (n : nat) : string :=
  match n with
  | O => EmptyString
  | S n' => String c (repeat_char c n')
  end.

(** [v.hex()] and [bytes.fromhex(text)] *)
Definition hex_digit (n : N) : ascii :=
  ascii_of_N (if (n <? 10)%N then 48 + n else 87 + n)%N.

Definition hex_value (c : ascii) : option N :=
  let n := N_of_ascii c in
  if ((48 <=? n) && (n <=? 57))%N then Some (n - 48)%N
  else if ((97 <=? n) && (n <=? 102))%N then Some (n - 87)%N
  else if ((65 <=? n) && (n <=? 70))%N then Some (n - 55)%N
  else None.

Fixpoint hex (v : bytes) : string :=
  match v with
  | [] => EmptyString
  | b :: v' =>
      String (hex_digit (Byte.to_N b / 16)) (String (hex_digit (Byte.to_N b mod 16)) (hex v'))
  end.

Definition is_ascii_space (c : ascii) : bool :=
  let n := N_of_ascii c in
  ((9 <=? n) && (n <=? 13) || (n =? 32))%N.

(** White space is skipped between bytes, never inside one. *)
Fixpoint fromhex (text : string) : result bytes :=
  match text with
  | EmptyString => Ok []
  | String a text' =>
      if is_ascii_space a then fromhex text'
      else match text' with
           | String b text'' =>
               match hex_value a, hex_value b with
               | Some hi, Some lo =>
                   bind (fromhex text'') (fun v => Ok (byte_of_N (16 * hi + lo) :: v))
               | _, _ => Raise ValueError
               end
           | EmptyString => Raise ValueError
           end
  end.

(** The loop [for x in xs: out.append(body(x))]: the first exception leaves
    the loop and the function, and nothing of [out] is returned. *)
Fixpoint for_append {A B} (body : A -> result B) (xs : list A) : result (list B) :=
  match xs with
  | [] => Ok []
  | x :: xs' =>
      bind (body x) (fun y => bind (for_append body xs') (fun out => Ok (y :: out)))
  end.

(** [v[a:b]] for [0 <= a <= b] *)
Definition slice {A} (a b : nat) (v : list A) : list A := take (b - a) (drop a v).

(** [obj.method(...)] and [obj.attribute] for an [obj] that may be [None]:
    on [None] they raise [AttributeError]. *)
Definition call {A B} (obj : option A) (method : A -> result B) : result B :=
  match obj with
  | Some a => method a
  | None => Raise AttributeError
  end.

Definition attr {A B} (obj : option A) (attribute : A -> B) : result B :=
  call obj (fun a => Ok (attribute a)).

(** [range(n)] *)
Definition range (n : nat) : list nat := seq 0 n.

End Py.
Import Py.

Notation "x <- r ;; k" := (Py.bind r (fun x => k))
  (at level 100, r at next level, right associativity).


(** ** The [base58] package: [b58encode] and [b58decode], Bitcoin alphabet *)

Module Base58.

Definition alphabet : string :=
  "123456789ABCDEFGHJKLMNPQRSTUVWXYZabcdefghijkmnopqrstuvwxyz".

(** [alphabet[idx:idx+1]] for [idx < 58] *)
Definition alphabet_at (idx : N) : ascii :=
  default "1"%char (String.get (N.to_nat idx) alphabet).

(** The decode map: the position of a character in the alphabet. *)
Fixpoint index_from (c : ascii) (s : string) (pos : N) : option N :=
  match s with
  | EmptyString => None
  | String a s' => if Ascii.eqb a c then Some pos else index_from c s' (pos + 1)%N
  end.

Definition alphabet_index (c : ascii) : option N := index_from c alphabet 0%N.

(** [while i: i, idx = divmod(i, 58); string = alphabet[idx] + string]
    ([out] is the loop's [string]).
    [fuel] bounds the number of turns; [b58encode_int] passes the bit
    length of [i], which is more than the loop needs. *)
Fixpoint b58encode_int_loop (fuel : nat) (i : N) (out : string) : string :=
  match fuel with
  | O => out
  | S fuel' =>
      if (i =? 0)%N then out
      else b58encode_int_loop fuel' (i / 58)%N (String (alphabet_at (i mod 58)%N) out)
  end.

(** [b58encode_int(i, default_one=False)] *)
Definition b58encode_int (i : N) : string :=
  b58encode_int_loop (N.to_nat (N.size i)) i EmptyString.

Definition b58encode (v : bytes) : string :=
  let origlen := length v in
  let v := lstrip_byte x00 v in
  let newlen := length v in
  let acc := int_from_bytes v in
  let result := b58encode_int acc in
  repeat_char "1" (origlen - newlen) +:+ result.

(** [for char in v: decimal = decimal * 58 + map[char]]; a character
    outside the alphabet raises [ValueError]. *)
Fixpoint b58decode_int_loop (v : string) (decimal : N) : result N :=
  match v with
  | EmptyString => Ok decimal
  | String char v' =>
      match alphabet_index char with
      | Some d => b58decode_int_loop v' (decimal * 58 + d)%N
      | None => Raise ValueError
      end
  end.

(** [scrub_input(v)] for a [str]: [v.encode('ascii')], which raises
    [UnicodeEncodeError], a [ValueError], on a character that is not
    ASCII. *)
Definition scrub_input (v : string) : result string :=
  if isascii v then Ok v else Raise ValueError.

(** [b58decode_int(v)], as [b58decode] calls it, with bytes: [v.rstrip()]
    is the method of [bytes], and [scrub_input] leaves bytes as they are. *)
Definition b58decode_int (v : string) : result N :=
  let v := rstrip v in
  b58decode_int_loop v 0%N.

(** [b58decode(v)] for a [str] *)
Definition b58decode (v : string) : result bytes :=
  let v := str_rstrip v in
  v <- scrub_input v ;;
  let origlen := String.length v in
  let v := lstrip_char "1" v in
  let newlen := String.length v in
  acc <- b58decode_int v ;;
  Ok (to_bytes (origlen - newlen + N.to_nat ((bit_length acc + 7) / 8)) acc).

End Base58.

(** ** The packages taken as parameters *)

(** [hashlib], [hmac] and [unicodedata].  Nothing is assumed of them here;
    a lemma that needs the digest sizes says so. *)
Class Primitives : Type := {
  (** [hashlib.sha256(data).digest()] *)
  sha256 : bytes -> bytes;
  (** [hmac.new(key, msg, hashlib.sha512).digest()] *)
  hmac_sha512 : bytes -> bytes -> bytes;
  (** [unicodedata.normalize("NFKD", text)] *)
  nfkd : string -> string;
}.

(** [bip32utils.BIP32Key], as far as the scripts use it.  [ChildKey] may
    return [None] (an index that has no key) or raise. *)
Class Bip32Utils : Type := {
  BIP32Key : Type;
  (** [BIP32Key.fromEntropy(seed, public=False)] *)
  fromEntropy : bytes -> BIP32Key;
  (** [key.network = name] *)
  set_network : BIP32Key -> string -> BIP32Key;
  (** [key.ChildKey(index)] *)
  ChildKey : BIP32Key -> Z -> result (option BIP32Key);
  (** [key.ExtendedKey(private=True, encoded=True)] *)
  ExtendedKey : BIP32Key -> string;
  (** [key.PrivateKey()], [key.PublicKey()] *)
  PrivateKey : BIP32Key -> bytes;
  PublicKey : BIP32Key -> bytes;
  (** [key.WalletImportFormat()], [key.Address()] *)
  WalletImportFormat : BIP32Key -> string;
  Address : BIP32Key -> string;
}.

(** The answer of [subprocess.run(cmd, capture_output=True, text=True)]. *)
Record CompletedProcess : Type := {
  returncode : Z;
  stdout : string;
  stderr : string;
}.

(** The remote node and the JSON reader of [create_valid_descriptors.py]:
    [run cmd] is what the node answers to [cmd], and [checksum_of text] is
    [json.loads(text)['checksum']], which raises on text that is no such
    object. *)
Class Node : Type := {
  run : list string -> CompletedProcess;
  checksum_of : string -> result string;
}.

(** The order of the secp256k1 group (section 4.2 and 4.3 of the
    specification compare keys with it). *)
Definition curve_order : N :=
  0xFFFFFFFFFFFFFFFFFFFFFFFFFFFFFFFEBAAEDCE6AF48A03BBFD25E8CD0364141%N.

(** ** BIP39 seed *)

Section Seed.
Context `{Primitives}.

Definition xor_byte (a b : byte) : byte :=
  byte_of_N (N.lxor (Byte.to_N a) (Byte.to_N b)).

Definition xor_bytes (a b : bytes) : bytes := zip_with xor_byte a b.

(** PBKDF2 (RFC 8018, section 5.2) with HMAC-SHA512 as the pseudorandom
    function, for [to_seed] below: [pbkdf2_rounds] folds U_2 .. U_c into the
    block started with U_1, a block is F(P, S, c, i), and the key is the
    first [dklen] bytes of the blocks T_1, T_2, ... of 64 bytes each. *)
Fixpoint pbkdf2_rounds (password u acc : bytes) (n : nat) : bytes :=
  match n with
  | O => acc
  | S n' =>
      let u' := hmac_sha512 password u in
      pbkdf2_rounds password u' (xor_bytes acc u') n'
  end.

Definition pbkdf2_block (password salt : bytes) (iterations : nat) (i : nat) : bytes :=
  let u1 := hmac_sha512 password (salt ++ to_bytes 4 (N.of_nat i)) in
  pbkdf2_rounds password u1 u1 (iterations - 1).

Definition pbkdf2_hmac_sha512 (password salt : bytes) (iterations dklen : nat) : bytes :=
  take dklen (concat (map (pbkdf2_block password salt iterations)
                          (seq 1 ((dklen + 63) / 64)%nat))).

(** Modelled from the spec: [Mnemonic.to_seed] of the [mnemonic] package,
    which the scripts call and the repository does not contain.  Section 4.1:
    PBKDF2 with HMAC-SHA512, password the NFKD-normalized mnemonic sentence,
    salt the text mnemonic followed by the NFKD-normalized passphrase, 2048
    iterations, 64 bytes of output. *)
Definition to_seed (mnemonic passphrase : string) : bytes :=
  pbkdf2_hmac_sha512 (Py.encode (nfkd mnemonic))
                     (Py.encode ("mnemonic" +:+ nfkd passphrase)) 2048 64.

End Seed.

(** ** derive_keys.py *)

Section DeriveKeys.
Context `{Primitives} `{Bip32Utils}.

(** [mnemonic_to_seed(mnemonic_phrase, passphrase)] *)
Definition mnemonic_to_seed (mnemonic_phrase passphrase : string) : bytes :=
  to_seed mnemonic_phrase passphrase.

(** [derive_master_key(seed)] *)
Definition derive_master_key (seed : bytes) : bytes * bytes :=
  let hmac_sha512 := hmac_sha512 (Py.encode "Bitcoin seed") seed in
  let master_private_key := take 32 hmac_sha512 in
  let master_chain_code := drop 32 hmac_sha512 in
  (master_private_key, master_chain_code).

(** The body of the [if]/[else] of [derive_xprv]'s loop: the index one path
    element stands for. *)
Definition path_index (index_str : string) : result Z :=
  if Py.endswith index_str "'" || Py.endswith index_str "h" then
    n <- Py.int (Py.drop_last index_str) ;; Ok (n + 0x80000000)
  else
    Py.int index_str.

(** [for index_str in ...: index = ...; derived_key = derived_key.ChildKey(index)] *)
Fixpoint derive_elements (derived_key : option BIP32Key) (elements : list string)
  : result (option BIP32Key) :=
  match elements with
  | [] => Ok derived_key
  | index_str :: rest =>
      index <- path_index index_str ;;
      derived_key <- Py.call derived_key (fun k => ChildKey k index) ;;
      derive_elements derived_key rest
  end.

(** [derive_xprv(mnemonic_phrase, derivation_path, testnet)] *)
Definition derive_xprv (mnemonic_phrase derivation_path : string) (testnet : bool)
  : result string :=
  let seed := mnemonic_to_seed mnemonic_phrase "" in
  let master_key := fromEntropy seed in
  let master_key := if testnet then set_network master_key "testnet" else master_key in
  let derivation_path :=
    if Py.startswith derivation_path "m/" then Py.drop_first 2 derivation_path
    else derivation_path in
  derived_key <- derive_elements (Some master_key) (Py.split "/" derivation_path) ;;
  Py.attr derived_key ExtendedKey.

End DeriveKeys.

(** ** misc/recovery/fix_keys.py *)

Section FixKeys.
Context `{Primitives} `{Bip32Utils}.

Record testnet_key : Type := {
  tk_path : string;
  tk_privkey_wif : string;
  tk_privkey_hex : string;
  tk_pubkey : string;
}.

(** [for index in indices: derived_key = derived_key.ChildKey(index)] *)
Fixpoint derive_indices (derived_key : option BIP32Key) (indices : list Z)
  : result (option BIP32Key) :=
  match indices with
  | [] => Ok derived_key
  | index :: rest =>
      derived_key <- Py.call derived_key (fun k => ChildKey k index) ;;
      derive_indices derived_key rest
  end.

(** Lines 36-38: the testnet WIF text of the raw private key. *)
Definition wif_key (private_key_bytes : bytes) : string :=
  let extended_key := [xef] ++ private_key_bytes ++ [x01] in
  let checksum := take 4 (sha256 (sha256 extended_key)) in
  Base58.b58encode (extended_key ++ checksum).

(** The body of the loop over [range(num_keys)]. *)
Definition derive_testnet_key (master_key : BIP32Key) (i : nat) : result testnet_key :=
  derived_key <- derive_indices (Some master_key)
                   [84 + 0x80000000; 1 + 0x80000000; 0 + 0x80000000; 0; Z.of_nat i] ;;
  raw <- Py.attr derived_key PrivateKey ;;
  private_key_bytes <- Py.fromhex (Py.hex raw) ;;
  public <- Py.attr derived_key PublicKey ;;
  let pubkey_hex := Py.hex public in
  Ok {| tk_path := "m/84'/1'/0'/0/" +:+ Py.str i;
        tk_privkey_wif := wif_key private_key_bytes;
        tk_privkey_hex := Py.hex private_key_bytes;
        tk_pubkey := pubkey_hex |}.

(** [derive_testnet_keys(mnemonic_phrase, num_keys)] *)
Definition derive_testnet_keys (mnemonic_phrase : string) (num_keys : nat)
  : result (list testnet_key) :=
  let seed := to_seed mnemonic_phrase "" in
  let master_key := fromEntropy seed in
  let master_key := set_network master_key "testnet" in
  Py.for_append (derive_testnet_key master_key) (Py.range num_keys).

End FixKeys.

(** ** misc/recovery/import_keys.py *)

Section ImportKeys.
Context `{Primitives} `{Bip32Utils}.

Record individual_key : Type := {
  ik_path : string;
  ik_privkey_wif : string;
  ik_pubkey : string;
  ik_address : string;
}.

Definition base_path : string := "84'/1'/0'/0".

(** The index of one element of [base_path]: only the apostrophe marks a
    hardened element here. *)
Definition base_path_index (index_str : string) : result Z :=
  if Py.endswith index_str "'" then
    n <- Py.int (Py.drop_last index_str) ;; Ok (n + 0x80000000)
  else
    Py.int index_str.

Fixpoint derive_base_path (derived_key : option BIP32Key) (elements : list string)
  : result (option BIP32Key) :=
  match elements with
  | [] => Ok derived_key
  | index_str :: rest =>
      index <- base_path_index index_str ;;
      derived_key <- Py.call derived_key (fun k => ChildKey k index) ;;
      derive_base_path derived_key rest
  end.

(** The body of the loop over [range(num_keys)]. *)
Definition derive_individual_key (master_key : BIP32Key) (i : nat)
  : result individual_key :=
  derived_key <- derive_base_path (Some master_key) (Py.split "/" base_path) ;;
  final_key <- Py.call derived_key (fun k => ChildKey k (Z.of_nat i)) ;;
  privkey_wif <- Py.attr final_key WalletImportFormat ;;
  public <- Py.attr final_key PublicKey ;;
  address <- Py.attr final_key Address ;;
  Ok {| ik_path := "m/" +:+ base_path +:+ "/" +:+ Py.str i;
        ik_privkey_wif := privkey_wif;
        ik_pubkey := Py.hex public;
        ik_address := address |}.

(** [derive_individual_keys(mnemonic_phrase, num_keys)] *)
Definition derive_individual_keys (mnemonic_phrase : string) (num_keys : nat)
  : result (list individual_key) :=
  let seed := to_seed mnemonic_phrase "" in
  let master_key := fromEntropy seed in
  let master_key := set_network master_key "testnet" in
  Py.for_append (derive_individual_key master_key) (Py.range num_keys).

End ImportKeys.

(** ** create_descriptors.py and create_valid_descriptors.py *)

Record descriptor : Type := {
  desc : string;
  timestamp : string;
  label : string;
  active : bool;
  watchonly : option bool;   (* absent in create_descriptors.py *)
}.

Section CreateDescriptors.
Context `{Primitives} `{Bip32Utils}.

(** The body of the loop over [range(num_keys)]. *)
Definition derive_key_with_descriptor (master_key : BIP32Key) (i : nat)
  : result descriptor :=
  derived_key <- derive_indices (Some master_key)
                   [84 + 0x80000000; 1 + 0x80000000; 0 + 0x80000000; 0; Z.of_nat i] ;;
  privkey_wif <- Py.attr derived_key WalletImportFormat ;;
  public <- Py.attr derived_key PublicKey ;;
  let pubkey_hex := Py.hex public in
  Ok {| desc := "wpkh(" +:+ privkey_wif +:+ ")";
        timestamp := "now";
        label := "specter_key_" +:+ Py.str i;
        active := true;
        watchonly := None |}.

(** [derive_keys_with_descriptors(mnemonic_phrase, num_keys)] *)
Definition derive_keys_with_descriptors (mnemonic_phrase : string) (num_keys : nat)
  : result (list descriptor) :=
  let seed := to_seed mnemonic_phrase "" in
  let master_key := fromEntropy seed in
  let master_key := set_network master_key "testnet" in
  Py.for_append (derive_key_with_descriptor master_key) (Py.range num_keys).

End CreateDescriptors.

Section CreateValidDescriptors.
Context `{Node}.

(** [get_descriptor_with_checksum(wif_key, label)]: [Ok None] is the
    [return None] taken after the error was printed. *)
Definition get_descriptor_with_checksum (wif_key label : string)
  : result (option descriptor) :=
  let cmd := ["bitcoin-cli"; "-signet"; "-rpcconnect=34.10.114.163";
              "-rpcuser=catnet"; "-rpcpassword=stark"; "getdescriptorinfo";
              "wpkh(" +:+ wif_key +:+ ")"]%string in
  let result := run cmd in
  if returncode result =? 0 then
    checksum <- checksum_of (stdout result) ;;
    Ok (Some {| desc := "wpkh(" +:+ wif_key +:+ ")#" +:+ checksum;
                timestamp := "now";
                label := label;
                active := false;
                watchonly := Some false |})
  else
    Ok None.

(** [for i, key in enumerate(keys): ... if desc: descriptors.append(desc)],
    [i] counting from [start]. *)
Fixpoint import_descriptors_from (start : nat) (keys : list testnet_key)
  : result (list descriptor) :=
  match keys with
  | [] => Ok []
  | key :: rest =>
      d <- get_descriptor_with_checksum (tk_privkey_wif key)
             ("specter_key_" +:+ Py.str start) ;;
      descriptors <- import_descriptors_from (S start) rest ;;
      Ok (match d with
          | Some d => d :: descriptors
          | None => descriptors
          end)
  end.

(** [create_import_descriptors()], [keys] being what testnet_keys.json
    holds. *)
Definition create_import_descriptors (keys : list testnet_key)
  : result (list descriptor) :=
  import_descriptors_from 0 keys.

(** What the calls of [get_descriptor_with_checksum] of that loop return,
    key by key. *)
Definition lookup_outcomes (start : nat) (keys : list testnet_key)
  : list (result (option descriptor)) :=
  imap (fun j key =>
          get_descriptor_with_checksum (tk_privkey_wif key)
            ("specter_key_" +:+ Py.str (start + j)))
       keys.

(** The descriptor an outcome adds to the list, if any. *)
Definition appended (outcome : result (option descriptor)) : option descriptor :=
  match outcome with
  | Ok d => d
  | Raise _ => None
  end.

End CreateValidDescriptors.

(** ** import_keys.py: the command list *)

(** The double quote character (a string literal here holds none). *)
Definition dq : string := String (ascii_of_nat 34) EmptyString.

(** The first command of [generate_bitcoin_cli_commands]. *)
Definition createwallet_command : string :=
  "bitcoin-cli -signet -rpcconnect=34.10.114.163 -rpcuser=catnet -rpcpassword=stark createwallet "
  +:+ dq +:+ "specter_recovery" +:+ dq +:+ " false false " +:+ dq +:+ dq +:+ " false true".

(** The f-string [cmd] of the loop, for one WIF text and one label. *)
Definition importprivkey_command (privkey_wif label : string) : string :=
  "bitcoin-cli -signet -rpcconnect=34.10.114.163 -rpcuser=catnet -rpcpassword=stark -rpcwallet=specter_recovery importprivkey "
  +:+ dq +:+ privkey_wif +:+ dq +:+ " " +:+ dq +:+ label +:+ dq +:+ " false".

(** The last command. *)
Definition rescan_command : string :=
  "bitcoin-cli -signet -rpcconnect=34.10.114.163 -rpcuser=catnet -rpcpassword=stark -rpcwallet=specter_recovery rescanblockchain".

(** [for i, key in enumerate(keys): label = ...; cmd = ...; commands.append(cmd)],
    [i] counting from [start]. *)
Fixpoint import_commands_from (start : nat) (keys : list individual_key) : list string :=
  match keys with
  | [] => []
  | key :: rest =>
      let label := "specter_key_" +:+ Py.str start in
      let cmd := importprivkey_command (ik_privkey_wif key) label in
      cmd :: import_commands_from (S start) rest
  end.

(** [generate_bitcoin_cli_commands(keys)] *)
Definition generate_bitcoin_cli_commands (keys : list individual_key) : list string :=
  [createwallet_command] ++ import_commands_from 0 keys ++ [rescan_command].

(** ** Extended keys as objects

    The scripts hold keys as objects: [master_key.network = ...] assigns an
    attribute in place, [derived_key = master_key] is a second name for one
    object, and the master key is used again in every turn of the loop over
    [range(num_keys)].  This part keeps the objects in a store, so that what
    a derivation does to its parent can be stated. *)

Module Objects.

(** The curve and the address hash, parameters like the digests. *)
Class Curve : Type := {
  (** the compressed SEC1 public key of a private key *)
  serializedCompressedPublicKey : bytes -> bytes;
  (** RIPEMD160 of SHA256 *)
  hash160 : bytes -> bytes;
}.

(** Section 3 of the specification, for a key that holds its private key
    (the scripts build every key with [public=False]). *)
Record ExtKey : Type := {
  privateKey : bytes;
  chainCode : bytes;
  depth : Z;
  parentFingerprint : bytes;
  childIndex : Z;
}.

(** A key object: the key and the [network] attribute a script may have
    assigned to it. *)
Record KeyObject : Type := {
  key : ExtKey;
  network : option string;
}.

Abbreviation loc := positive.
Abbreviation store := (gmap positive KeyObject).

(** Two objects that agree on every field. *)
Definition same_fields (o o' : KeyObject) : Prop :=
  privateKey (key o') = privateKey (key o)
  /\ chainCode (key o') = chainCode (key o)
  /\ depth (key o') = depth (key o)
  /\ parentFingerprint (key o') = parentFingerprint (key o)
  /\ childIndex (key o') = childIndex (key o)
  /\ network o' = network o.

Section Derivation.
Context `{Primitives} `{Curve}.

(** Section 4.2: the master key of a seed, from [derive_master_key]. *)
Definition masterKey (seed : bytes) : ExtKey :=
  let '(master_private_key, master_chain_code) := derive_master_key seed in
  {| privateKey := master_private_key;
     chainCode := master_chain_code;
     depth := 0;
     parentFingerprint := [x00; x00; x00; x00];
     childIndex := 0 |}.

(** Modelled from the spec: the child derivation of [bip32utils], which the
    repository calls and does not contain.  Section 4.3, for a parent that
    holds its private key. *)
Definition deriveChild (parent : ExtKey) (index : Z) (hardened : bool) : result ExtKey :=
  let effectiveIndex := if hardened then Z.lor index 0x80000000 else index in
  let data :=
    if hardened then
      [x00] ++ privateKey parent ++ to_bytes 4 (Z.to_N effectiveIndex)
    else
      serializedCompressedPublicKey (privateKey parent)
        ++ to_bytes 4 (Z.to_N effectiveIndex) in
  let I := hmac_sha512 (chainCode parent) data in
  let IL := int_from_bytes (take 32 I) in
  let IR := take 32 (drop 32 I) in
  if (curve_order <=? IL)%N then Raise InvalidChildKey
  else
    let childPrivateKey := ((IL + int_from_bytes (privateKey parent)) mod curve_order)%N in
    if (childPrivateKey =? 0)%N then Raise InvalidChildKey
    else
      Ok {| privateKey := to_bytes 32 childPrivateKey;
            chainCode := IR;
            depth := depth parent + 1;
            parentFingerprint :=
              take 4 (hash160 (serializedCompressedPublicKey (privateKey parent)));
            childIndex := effectiveIndex |}.

(** Modelled from the spec: [BIP32Key.fromEntropy(seed, public=False)] of
    [bip32utils], as section 4.2 has the master key: a new object. *)
Definition fromEntropy_obj (s : store) (seed : bytes) : store * loc :=
  let l := fresh (dom s) in
  (<[l := {| key := masterKey seed; network := None |}]> s, l).

(** [obj.network = name]: the object at [l] changes in place. *)
Definition set_network_obj (s : store) (l : loc) (name : string) : store :=
  match s !! l with
  | Some o => <[l := {| key := key o; network := Some name |}]> s
  | None => s
  end.

(** Modelled from the spec: [parent.ChildKey(index)] of [bip32utils], for a
    32-bit [index] whose top bit says hardened.  Section 3: child derivation
    produces a brand-new key and never mutates the parent.  The child has no
    [network] attribute (only a script assigns one); a derivation that fails
    makes no object. *)
Definition ChildKey_obj (s : store) (parent : loc) (index : Z) : store * result loc :=
  match s !! parent with
  | None => (s, Raise AttributeError)
  | Some o =>
      match deriveChild (key o) (Z.land index 0x7FFFFFFF) (0x80000000 <=? index) with
      | Ok child =>
          let l := fresh (dom s) in
          (<[l := {| key := child; network := None |}]> s, Ok l)
      | Raise e => (s, Raise e)
      end
  end.

(** [for index in indices: derived_key = derived_key.ChildKey(index)] *)
Fixpoint derive_indices_obj (s : store) (derived_key : loc) (indices : list Z)
  : store * result loc :=
  match indices with
  | [] => (s, Ok derived_key)
  | index :: rest =>
      match ChildKey_obj s derived_key index with
      | (s', Ok child) => derive_indices_obj s' child rest
      | (s', Raise e) => (s', Raise e)
      end
  end.

(** Lines 17-27 of create_descriptors.py: the master key is made and marked
    once, and every turn of the loop derives its leaf key from it.  The
    result is the store and the leaf keys of the turns so far. *)
Fixpoint derive_leaves_obj (s : store) (master_key : loc) (turns : list nat)
  : store * result (list loc) :=
  match turns with
  | [] => (s, Ok [])
  | i :: rest =>
      match derive_indices_obj s master_key
              [84 + 0x80000000; 1 + 0x80000000; 0 + 0x80000000; 0; Z.of_nat i] with
      | (s', Ok leaf) =>
          match derive_leaves_obj s' master_key rest with
          | (s'', Ok leaves) => (s'', Ok (leaf :: leaves))
          | (s'', Raise e) => (s'', Raise e)
          end
      | (s', Raise e) => (s', Raise e)
      end
  end.

Definition derive_keys_obj (s : store) (seed : bytes) (num_keys : nat)
  : store * loc * result (list loc) :=
  let '(s, master_key) := fromEntropy_obj s seed in
  let s := set_network_obj s master_key "testnet" in
  let '(s', leaves) := derive_leaves_obj s master_key (Py.range num_keys) in
  (s', master_key, leaves).

End Derivation.

End Objects.

(** ** The specification's encoder and decoder, in its own words *)

Inductive network_id : Type := main | test.

Definition wif_version (network : network_id) : byte :=
  match network with
  | main => x80
  | test => xef
  end.

(** Section 4.4, WIF: version, private key, compression flag, four bytes of
    double SHA256, Base58. *)
Definition toWIF `{Primitives} (privateKey : bytes) (network : network_id)
    (compressed : bool) : string :=
  let payload := [wif_version network] ++ privateKey ++ (if compressed then [x01] else []) in
  Base58.b58encode (payload ++ take 4 (sha256 (sha256 payload))).

(** Section 8, the way back: Base58-decode, drop the version byte, keep the
    32 bytes of the key (what follows is the compression flag and the
    checksum). *)
Definition fromWIF (wif : string) : result bytes :=
  decoded <- Base58.b58decode wif ;;
  Ok (Py.slice 1 33 decoded).

(** Section 3, a path element's index (a u31) as text: decimal digits, and
    the number they spell. *)
Fixpoint all_digits (s : string) : bool :=
  match s with
  | EmptyString => true
  | String c s' => bool_decide (is_Some (Py.digit_of c)) && all_digits s'
  end.

Definition is_decimal (s : string) : bool :=
  negb (String.eqb s EmptyString) && all_digits s.

Fixpoint decimal_value_from (s : string) (acc : Z) : Z :=
  match s with
  | EmptyString => acc
  | String c s' => decimal_value_from s' (10 * acc + default 0 (Py.digit_of c))
  end.

Definition decimal_value (s : string) : Z := decimal_value_from s 0.

(** A path element holds no separator. *)
Fixpoint has_char (c : ascii) (s : string) : bool :=
  match s with
  | EmptyString => false
  | String a s' => Ascii.eqb a c || has_char c s'
  end.

(** Section 4.3, a path applied: one [ChildKey] per index, the first index
    first. *)
Definition apply_path `{Bip32Utils} (root : option BIP32Key) (indices : list Z)
  : result (option BIP32Key) :=
  fold_left (fun r index => parent <- r ;; Py.call parent (fun k => ChildKey k index))
            indices (Ok root).

(** The path and the label the batch scripts give the key with index [i]. *)
Definition leaf_path (i : nat) : string := "m/84'/1'/0'/0/" +:+ Py.str i.

Definition key_label (i : nat) : string := "specter_key_" +:+ Py.str i.

(** The command line [get_descriptor_with_checksum] runs for a WIF text,
    and the descriptor it returns for a checksum. *)
Definition descriptor_query (wif_key : string) : list string :=
  ["bitcoin-cli"; "-signet"; "-rpcconnect=34.10.114.163";
   "-rpcuser=catnet"; "-rpcpassword=stark"; "getdescriptorinfo";
   "wpkh(" +:+ wif_key +:+ ")"]%string.

Definition checked_descriptor (wif_key label checksum : string) : descriptor :=
  {| desc := "wpkh(" +:+ wif_key +:+ ")#" +:+ checksum;
     timestamp := "now";
     label := label;
     active := false;
     watchonly := Some false |}.

(** Two path elements that differ at most in the hardened mark. *)
Definition same_up_to_mark (e e' : string) : Prop :=
  e = e' \/ exists stem, e = stem +:+ "'" /\ e' = stem +:+ "h".

(** Every character of a text passes a test. *)
Fixpoint string_forall (test : ascii -> bool) (s : string) : bool :=
  match s with
  | EmptyString => true
  | String c s' => test c && string_forall test s'
  end.

(** A character of the Base58 alphabet. *)
Definition is_base58_char (c : ascii) : bool :=
  match Base58.alphabet_index c with
  | Some _ => true
  | None => false
  end.

(** Section 4.2: the keys the master key deriver has to refuse. *)
Definition invalid_master_key (privateKey : bytes) : bool :=
  let k := int_from_bytes privateKey in
  ((k =? 0) || (curve_order <=? k))%N.

(** ** Stand-ins for the parameters

    Small instances of the packages, to run the scripts on concrete input.
    They keep the shapes of the real ones (digest sizes, one new key per
    [ChildKey]) and nothing of their cryptography. *)

Module Standins.

(** Digests that pad or cut their input to size. *)
Definition pad_to (n : nat) (v : bytes) : bytes := take n (v ++ repeat x00 n).

Definition padding : Primitives := {|
  sha256 := pad_to 32;
  hmac_sha512 := fun key msg => pad_to 64 (key ++ msg);
  nfkd := fun text => text;
|}.

(** An HMAC that answers 64 zero bytes, the digest whose left half is the
    key zero. *)
Definition zero_digest : Primitives := {|
  sha256 := pad_to 32;
  hmac_sha512 := fun _ _ => repeat x00 64;
  nfkd := fun text => text;
|}.

Definition show_index (i : Z) : string := NilZero.string_of_int (Z.to_int i).

Definition show_trail (trail : list Z) : string := Py.join "/" (map show_index trail).

Definition trail_number (trail : list Z) : N :=
  fold_left (fun acc i => (acc * 4294967296 + Z.to_N i)%N) trail 1%N.

(** Keys that are the trail of indices they were derived by; [fails] says
    which derivations have no key. *)
Definition trail_keys (fails : list Z -> Z -> bool) : Bip32Utils := {|
  BIP32Key := list Z;
  fromEntropy := fun _ => [];
  set_network := fun k _ => k;
  ChildKey := fun k i => Ok (if fails k i then None else Some (k ++ [i]));
  ExtendedKey := fun k => "tprv/" +:+ show_trail k;
  PrivateKey := fun k => to_bytes 32 (trail_number k);
  PublicKey := fun k => x02 :: to_bytes 32 (trail_number k);
  WalletImportFormat := fun k => "wif/" +:+ show_trail k;
  Address := fun k => "tb1/" +:+ show_trail k;
|}.

Definition trails : Bip32Utils := trail_keys (fun _ _ => false).

(** The leaf with index 1 under a parent of depth 4 has no key: [ChildKey]
    returns [None] for it. *)
Definition no_second_leaf : Bip32Utils :=
  trail_keys (fun k i => (length k =? 4)%nat && (i =? 1)).

(** A node that knows the checksum of one descriptor only. *)
Definition one_descriptor_node (known : string) : Node := {|
  run := fun cmd =>
    if decide (last cmd = Some ("wpkh(" +:+ known +:+ ")")) then
      {| returncode := 0; stdout := "abcdefgh"; stderr := "" |}
    else
      {| returncode := 5; stdout := ""; stderr := "Invalid descriptor" |};
  checksum_of := fun text => Ok text;
|}.

(** A curve whose public key is the private key behind a marker. *)
Definition marked_keys : Objects.Curve := {|
  Objects.serializedCompressedPublicKey := fun k => x02 :: k;
  Objects.hash160 := pad_to 20;
|}.

(** A store with one object, the master key of a seed, marked testnet. *)
Definition one_master : gmap positive Objects.KeyObject :=
  {[ 1%positive := {| Objects.key := @Objects.masterKey padding [x01; x02; x03];
                      Objects.network := Some "testnet"%string |} ]}.

(** A node that answers code 0 and text no reader accepts, and one that
    knows a checksum for every descriptor. *)
Definition garbled_node : Node := {|
  run := fun _ => {| returncode := 0; stdout := "<html>"; stderr := "" |};
  checksum_of := fun _ => Raise ValueError;
|}.

Definition agreeable_node : Node := {|
  run := fun _ => {| returncode := 0; stdout := "abcdefgh"; stderr := "" |};
  checksum_of := fun text => Ok text;
|}.

(** A record of testnet_keys.json, of which only the WIF text is read. *)
Definition sample_key (wif : string) : testnet_key :=
  {| tk_path := "m/84'/1'/0'/0/0"; tk_privkey_wif := wif;
     tk_privkey_hex := "00"; tk_pubkey := "02" |}.

End Standins.

(** * Properties *)

(** ** The builtins on concrete input *)

Example int_reads_decimal : Py.int "84" = Ok 84.
Proof. reflexivity. Qed.

Example int_reads_sign_space_underscore : Py.int " -1_000 " = Ok (-1000).
Proof. reflexivity. Qed.

Example int_refuses_letter : Py.int "m" = Raise ValueError.
Proof. reflexivity. Qed.

(** The separators 28 to 31 are white space to [str.rstrip], not to [int]. *)
Example int_refuses_separator :
  Py.int (String (ascii_of_nat 28) "5") = Raise ValueError
  /\ Py.int (String (ascii_of_nat 12) "5") = Ok 5
  /\ Py.str_rstrip ("5" +:+ String (ascii_of_nat 28) " ") = "5"%string.
Proof. repeat split. Qed.

Example int_refuses_empty : Py.int "" = Raise ValueError.
Proof. reflexivity. Qed.

Example int_refuses_double_underscore : Py.int "1__0" = Raise ValueError.
Proof. reflexivity. Qed.

Example split_keeps_empty_fields : Py.split "/" "84'//0" = ["84'"; ""; "0"]%string.
Proof. reflexivity. Qed.

Example fromhex_skips_space : Py.fromhex "ef 01" = Ok [xef; x01].
Proof. reflexivity. Qed.

Example b58encode_text :
  Base58.b58encode (Py.encode "Hello World!") = "2NEpo7TZRRrLZSi2U"%string.
Proof. reflexivity. Qed.

Example b58encode_leading_zeros : Base58.b58encode [x00; x00; x01; x02] = "115T"%string.
Proof. reflexivity. Qed.

Example b58decode_drops_trailing_space :
  Base58.b58decode "115T " = Ok [x00; x00; x01; x02]
  /\ Base58.b58decode " 115T" = Raise ValueError.
Proof. split; reflexivity. Qed.

(** ** Python text *)

Section PyFacts.

Lemma bind_Ok {A B} (r : result A) (f : A -> result B) (b : B) :
  Py.bind r f = Ok b -> exists a, r = Ok a /\ f a = Ok b.
Proof. destruct r as [a|e]; simpl; [eauto | discriminate]. Qed.

Lemma startswith_app (p s : string) : Py.startswith (p +:+ s) p = true.
Proof.
  induction p as [|a p IH]; simpl.
  - destruct s; reflexivity.
  - rewrite Ascii.eqb_refl. exact IH.
Qed.

Lemma drop_first_app (p s : string) : Py.drop_first (String.length p) (p +:+ s) = s.
Proof. induction p as [|a p IH]; simpl; [reflexivity | exact IH]. Qed.

Lemma endswith_app (s suf : string) : Py.endswith (s +:+ suf) suf = true.
Proof.
  induction s as [|a s IH].
  - change (Py.endswith suf suf = true).
    destruct suf; [reflexivity|]. cbn [Py.endswith]. rewrite String.eqb_refl. reflexivity.
  - change (Py.endswith (String a (s +:+ suf)) suf = true).
    cbn [Py.endswith]. rewrite IH. apply orb_true_r.
Qed.

Lemma drop_last_app (s : string) (c : ascii) :
  Py.drop_last (s +:+ String c EmptyString) = s.
Proof.
  induction s as [|a s IH]; simpl; [reflexivity|].
  rewrite IH. destruct s; reflexivity.
Qed.

Lemma endswith_inv (s suf : string) :
  Py.endswith s suf = true -> exists stem, s = stem +:+ suf.
Proof.
  induction s as [|a s IH]; cbn [Py.endswith].
  - rewrite orb_false_r. intros <-%String.eqb_eq. exists EmptyString. reflexivity.
  - intros [<-%String.eqb_eq | Htail]%orb_true_iff; [exists EmptyString; reflexivity|].
    destruct (IH Htail) as [stem ->]. exists (String a stem). reflexivity.
Qed.

(** What a decimal digit is not. *)
Lemma digit_code (c : ascii) (d : Z) :
  Py.digit_of c = Some d -> (48 <= N_of_ascii c <= 57)%N /\ d = Z.of_N (N_of_ascii c) - 48.
Proof.
  unfold Py.digit_of. intros Hd.
  destruct (48 <=? Z.of_N (N_of_ascii c)) eqn:Hlo; simpl in Hd; [|discriminate].
  destruct (Z.of_N (N_of_ascii c) <=? 57) eqn:Hhi; [|discriminate].
  inversion Hd. lia.
Qed.

Lemma digit_is_not (c other : ascii) (d : Z) :
  Py.digit_of c = Some d ->
  (N_of_ascii other < 48 \/ 57 < N_of_ascii other)%N ->
  Ascii.eqb c other = false.
Proof.
  intros Hd Hother. apply digit_code in Hd as [Hc _].
  apply Ascii.eqb_neq. intros ->. lia.
Qed.

Lemma digit_not_space (c : ascii) (d : Z) : Py.digit_of c = Some d -> Py.is_space c = false.
Proof.
  intros Hd. apply digit_code in Hd as [Hc _]. unfold Py.is_space.
  destruct (N.leb_spec 9 (N_of_ascii c)), (N.leb_spec (N_of_ascii c) 13),
    (N.eqb_spec (N_of_ascii c) 32); simpl; try reflexivity; lia.
Qed.

Lemma all_digits_cons (c : ascii) (s : string) :
  all_digits (String c s) = true -> (exists d, Py.digit_of c = Some d) /\ all_digits s = true.
Proof.
  simpl. intros [Hc Hs]%andb_true_iff. split; [|exact Hs].
  apply bool_decide_eq_true in Hc as [d Hd]. eauto.
Qed.

Lemma rstrip_digits (s : string) : all_digits s = true -> Py.rstrip s = s.
Proof.
  induction s as [|c s IH]; [reflexivity|].
  intros [[d Hd] Hs]%all_digits_cons. simpl. rewrite (IH Hs).
  destruct s; [|reflexivity].
  rewrite (digit_not_space _ _ Hd). reflexivity.
Qed.

Lemma strip_decimal (s : string) : is_decimal s = true -> Py.strip s = s.
Proof.
  unfold is_decimal, Py.strip. intros [_ Hs]%andb_true_iff.
  destruct s as [|c s]; [reflexivity|].
  pose proof Hs as [[d Hd] _]%all_digits_cons.
  simpl. rewrite (digit_not_space _ _ Hd). apply rstrip_digits, Hs.
Qed.

Lemma int_digits_decimal (s : string) (acc : Z) :
  all_digits s = true -> Py.int_digits s acc = Some (decimal_value_from s acc).
Proof.
  revert acc. induction s as [|c s IH]; intros acc; [reflexivity|].
  intros [[d Hd] Hs]%all_digits_cons. simpl. rewrite Hd. simpl. apply IH, Hs.
Qed.

Lemma digit_count_length (s : string) : Py.digit_count s <= Z.of_nat (String.length s).
Proof.
  induction s as [|c s IH]; [reflexivity|].
  cbn [Py.digit_count String.length]. destruct (Py.digit_of c); lia.
Qed.

(** [int] reads a string of decimal digits, not too many, as the number it
    spells. *)
Lemma int_decimal (s : string) :
  is_decimal s = true ->
  Z.of_nat (String.length s) <= Py.max_str_digits ->
  Py.int s = Ok (decimal_value s).
Proof.
  intros Hs Hlen. unfold Py.int. rewrite (strip_decimal _ Hs).
  assert (Hfew : (Py.max_str_digits <? Py.digit_count s) = false).
  { apply Z.ltb_ge. pose proof (digit_count_length s). lia. }
  rewrite Hfew. clear Hfew Hlen.
  unfold is_decimal in Hs. apply andb_true_iff in Hs as [Hne Hs].
  destruct s as [|c s]; [discriminate|].
  pose proof Hs as [[d Hd] Hs']%all_digits_cons.
  rewrite (digit_is_not c "+" d Hd), (digit_is_not c "-" d Hd) by (simpl; lia).
  unfold Py.int_body. rewrite Hd, (int_digits_decimal _ _ Hs').
  unfold decimal_value. simpl. rewrite Hd. reflexivity.
Qed.

(** What [int] reads is ASCII text: white space, a sign, digits and
    underscores. *)
Lemma space_isascii (c : ascii) : Py.is_space c = true -> (N_of_ascii c <? 128)%N = true.
Proof.
  unfold Py.is_space. intros Hc. apply N.ltb_lt.
  apply orb_true_iff in Hc as [[_ Hhi%N.leb_le]%andb_true_iff | Heq%N.eqb_eq]; lia.
Qed.

Lemma digit_isascii (c : ascii) (d : Z) :
  Py.digit_of c = Some d -> (N_of_ascii c <? 128)%N = true.
Proof. intros [Hc _]%digit_code. apply N.ltb_lt. lia. Qed.

Lemma isascii_app (s t : string) : Py.isascii (s +:+ t) = Py.isascii s && Py.isascii t.
Proof.
  induction s as [|a s IH]; [reflexivity|].
  change (Py.isascii (String a (s +:+ t)) = Py.isascii (String a s) && Py.isascii t).
  cbn [Py.isascii]. rewrite IH, andb_assoc. reflexivity.
Qed.

Lemma isascii_lstrip (s : string) : Py.isascii (Py.lstrip s) = true -> Py.isascii s = true.
Proof.
  induction s as [|c s IH]; [reflexivity|].
  cbn [Py.lstrip]. destruct (Py.is_space c) eqn:Hc; [|exact id].
  intros Hs. cbn [Py.isascii]. rewrite (space_isascii _ Hc), (IH Hs). reflexivity.
Qed.

Lemma isascii_rstrip (s : string) : Py.isascii (Py.rstrip s) = true -> Py.isascii s = true.
Proof.
  induction s as [|c s IH]; [reflexivity|].
  cbn [Py.rstrip Py.isascii]. destruct (Py.rstrip s) as [|a t].
  - rewrite (IH eq_refl), andb_true_r.
    destruct (Py.is_space c) eqn:Hc; [intros _; apply space_isascii, Hc|].
    cbn [Py.isascii]. rewrite andb_true_r. exact id.
  - cbn [Py.isascii] in *. intros [Hc Hs]%andb_true_iff. rewrite Hc, (IH Hs). reflexivity.
Qed.

Lemma int_digits_isascii (n : nat) (s : string) (acc v : Z) :
  (String.length s <= n)%nat -> Py.int_digits s acc = Some v -> Py.isascii s = true.
Proof.
  revert s acc. induction n as [|n IH]; intros s acc Hn Hv.
  - destruct s; [reflexivity | simpl in Hn; lia].
  - destruct s as [|c s]; [reflexivity|].
    cbn [String.length] in Hn. cbn [Py.int_digits] in Hv. cbn [Py.isascii].
    destruct (Py.digit_of c) as [d|] eqn:Hd.
    + rewrite (digit_isascii _ _ Hd). apply (IH s _ ltac:(lia) Hv).
    + destruct (Ascii.eqb_spec c "_") as [->|]; [|discriminate].
      destruct s as [|c' s]; [discriminate|].
      destruct (Py.digit_of c') as [d'|] eqn:Hd'; [|discriminate].
      cbn [String.length] in Hn. cbn [Py.isascii]. rewrite (digit_isascii _ _ Hd').
      apply (IH s _ ltac:(lia) Hv).
Qed.

Lemma int_body_isascii (s : string) (v : Z) :
  Py.int_body s = Some v -> Py.isascii s = true.
Proof.
  destruct s as [|c s]; [discriminate|]. cbn [Py.int_body Py.isascii].
  destruct (Py.digit_of c) as [d|] eqn:Hd; [|discriminate].
  intros Hv. rewrite (digit_isascii _ _ Hd). exact (int_digits_isascii _ _ _ _ (le_n _) Hv).
Qed.

Lemma int_Ok_isascii (text : string) (n : Z) : Py.int text = Ok n -> Py.isascii text = true.
Proof.
  unfold Py.int, Py.strip. intros Hn. apply isascii_lstrip, isascii_rstrip.
  destruct (Py.rstrip (Py.lstrip text)) as [|c s]; [discriminate|].
  destruct (Ascii.eqb_spec c "+") as [->|_].
  - destruct (Py.int_body s) as [v|] eqn:Hv; [|discriminate].
    cbn [Py.isascii]. exact (int_body_isascii _ _ Hv).
  - destruct (Ascii.eqb_spec c "-") as [->|_].
    + destruct (Py.int_body s) as [v|] eqn:Hv; [|discriminate].
      cbn [Py.isascii]. exact (int_body_isascii _ _ Hv).
    + destruct (Py.int_body (String c s)) as [v|] eqn:Hv; [|discriminate].
      exact (int_body_isascii _ _ Hv).
Qed.

Lemma endswith_digits (s : string) (c : ascii) :
  all_digits s = true ->
  (N_of_ascii c < 48 \/ 57 < N_of_ascii c)%N ->
  Py.endswith s (String c EmptyString) = false.
Proof.
  intros Hs Hc. induction s as [|a s IH]; [reflexivity|].
  apply all_digits_cons in Hs as [[d Hd] Hs]. simpl.
  rewrite (digit_is_not a c d Hd Hc), (IH Hs). reflexivity.
Qed.

Lemma split_no_sep (sep : ascii) (s : string) :
  has_char sep s = false -> Py.split sep s = [s].
Proof.
  induction s as [|a s IH]; [reflexivity|].
  simpl. intros [Ha Hs]%orb_false_iff. rewrite Ha, (IH Hs). reflexivity.
Qed.

Lemma split_app_sep (sep : ascii) (s rest : string) :
  has_char sep s = false ->
  Py.split sep (s +:+ String sep rest) = s :: Py.split sep rest.
Proof.
  induction s as [|a s IH]; simpl.
  - intros _. rewrite Ascii.eqb_refl. reflexivity.
  - intros [Ha Hs]%orb_false_iff. rewrite Ha, (IH Hs). reflexivity.
Qed.

(** Splitting undoes joining, for fields that hold no separator. *)
Lemma split_join (sep : ascii) (fields : list string) :
  fields <> [] ->
  Forall (fun field => has_char sep field = false) fields ->
  Py.split sep (Py.join sep fields) = fields.
Proof.
  induction fields as [|field rest IH]; [congruence|].
  intros _ Hall. inversion Hall as [|? ? Hfield Hrest]; subst.
  destruct rest as [|next rest'].
  - simpl. apply split_no_sep, Hfield.
  - change (Py.join sep (field :: next :: rest'))
      with (field +:+ String sep (Py.join sep (next :: rest'))).
    rewrite (split_app_sep _ _ _ Hfield), IH; [reflexivity | congruence | exact Hrest].
Qed.

End PyFacts.

Section HexFacts.

Lemma fromhex_byte (b : byte) (text : string) :
  Py.fromhex (String (Py.hex_digit (Byte.to_N b / 16))
                (String (Py.hex_digit (Byte.to_N b mod 16)) text))
  = Py.bind (Py.fromhex text) (fun v => Ok (b :: v)).
Proof. destruct b; reflexivity. Qed.

(** Reading back the hex text of some bytes gives the bytes. *)
Lemma fromhex_hex (v : bytes) : Py.fromhex (Py.hex v) = Ok v.
Proof.
  induction v as [|b v IH]; [reflexivity|].
  cbn [Py.hex]. rewrite fromhex_byte, IH. reflexivity.
Qed.

End HexFacts.

(** ** derive_keys.py: path strings *)

Section PathFacts.
Context `{Primitives} `{Bip32Utils}.

Lemma lor_hardened_bit (index : Z) :
  0 <= index < 2 ^ 31 -> Z.lor index 0x80000000 = index + 0x80000000.
Proof.
  intros Hindex.
  assert (Hland : Z.land index 0x80000000 = 0).
  { apply Z.bits_inj'. intros n Hn.
    rewrite Z.land_spec, Z.bits_0.
    change 0x80000000 with (2 ^ 31). rewrite Z.pow2_bits_eqb by lia.
    destruct (Z.eqb_spec 31 n) as [<-|]; [|apply andb_false_r].
    rewrite Z.testbit_eqb by lia. rewrite Z.div_small by lia. reflexivity. }
  rewrite <- Z.lxor_lor by exact Hland.
  symmetry. apply Z.add_nocarry_lxor, Hland.
Qed.

Lemma apply_path_step (r : result (option BIP32Key)) (indices : list Z) :
  fold_left (fun r index => parent <- r ;; Py.call parent (fun k => ChildKey k index))
    indices r
  = (parent <- r ;; apply_path parent indices).
Proof.
  revert r. induction indices as [|index rest IH]; intros r.
  - destruct r; reflexivity.
  - cbn [fold_left]. rewrite IH. destruct r as [parent|e]; [|reflexivity].
    simpl. unfold apply_path. cbn [fold_left]. rewrite IH. reflexivity.
Qed.

Lemma apply_path_cons (parent : option BIP32Key) (index : Z) (rest : list Z) :
  apply_path parent (index :: rest)
  = (child <- Py.call parent (fun k => ChildKey k index) ;; apply_path child rest).
Proof. unfold apply_path at 1. cbn [fold_left]. apply apply_path_step. Qed.

(** The loop of [derive_xprv] is the path applied, when every element reads
    as an index. *)
Lemma derive_elements_apply_path (parent : option BIP32Key) (elements : list string)
    (indices : list Z) :
  Forall2 (fun e index => path_index e = Ok index) elements indices ->
  derive_elements parent elements = apply_path parent indices.
Proof.
  intros Hall. revert parent.
  induction Hall as [|e index elements indices He _ IH]; intros parent; [reflexivity|].
  rewrite apply_path_cons. cbn [derive_elements]. rewrite He. cbn [Py.bind].
  destruct (Py.call parent _) as [child|err]; simpl; [apply IH | reflexivity].
Qed.

(** The loop over a list of indices (fix_keys.py, create_descriptors.py) is
    the path applied. *)
Lemma derive_indices_apply_path (parent : option BIP32Key) (indices : list Z) :
  derive_indices parent indices = apply_path parent indices.
Proof.
  revert parent. induction indices as [|index rest IH]; intros parent; [reflexivity|].
  rewrite apply_path_cons. cbn [derive_indices].
  destruct (Py.call parent _) as [child|err]; simpl; [apply IH | reflexivity].
Qed.

Lemma path_index_hardened (d : string) (mark : ascii) :
  is_decimal d = true ->
  Z.of_nat (String.length d) <= Py.max_str_digits ->
  0 <= decimal_value d < 2 ^ 31 ->
  mark = "'"%char \/ mark = "h"%char ->
  path_index (d +:+ String mark EmptyString) = Ok (Z.lor (decimal_value d) 0x80000000).
Proof.
  intros Hd Hlen Hrange Hmark. unfold path_index.
  assert (Hends : Py.endswith (d +:+ String mark EmptyString) "'"
                  || Py.endswith (d +:+ String mark EmptyString) "h" = true).
  { destruct Hmark as [-> | ->]; rewrite endswith_app; [reflexivity | apply orb_true_r]. }
  rewrite Hends, drop_last_app, (int_decimal _ Hd Hlen). simpl.
  rewrite lor_hardened_bit by exact Hrange. reflexivity.
Qed.

Lemma path_index_plain (d : string) :
  is_decimal d = true ->
  Z.of_nat (String.length d) <= Py.max_str_digits ->
  path_index d = Ok (decimal_value d).
Proof.
  intros Hd Hlen. unfold path_index.
  pose proof Hd as [_ Hdigits]%andb_true_iff.
  rewrite !endswith_digits by (try exact Hdigits; simpl; lia).
  simpl. apply int_decimal; assumption.
Qed.

(** A path element that reads as an index is ASCII text. *)
Lemma path_index_Ok_isascii (e : string) (index : Z) :
  path_index e = Ok index -> Py.isascii e = true.
Proof.
  unfold path_index.
  destruct (Py.endswith e "'") eqn:Hquote; [|destruct (Py.endswith e "h") eqn:Hh]; cbn [orb].
  - apply endswith_inv in Hquote as [stem ->]. rewrite drop_last_app, isascii_app.
    destruct (Py.int stem) as [n|] eqn:Hn; [|discriminate].
    intros _. rewrite (int_Ok_isascii _ _ Hn). reflexivity.
  - apply endswith_inv in Hh as [stem ->]. rewrite drop_last_app, isascii_app.
    destruct (Py.int stem) as [n|] eqn:Hn; [|discriminate].
    intros _. rewrite (int_Ok_isascii _ _ Hn). reflexivity.
  - apply int_Ok_isascii.
Qed.

(** C2.  In a derivation path string, an element that ends in an apostrophe
    or in h is hardened: for digits spelling a u31 [index] (at most the
    4300 digits [int] accepts), its effective index is [index | 0x80000000];
    an element of digits alone stands for the number itself; and
    [derive_xprv] applies the elements of the path from the master key, left
    to right, one [ChildKey] per element.  (The elements that read as an
    index are ASCII text, by [path_index_Ok_isascii] above.) *)
Theorem path_string_semantics (d mnemonic_phrase : string) (testnet : bool)
    (elements : list string) (indices : list Z) :
  is_decimal d = true ->
  Z.of_nat (String.length d) <= Py.max_str_digits ->
  0 <= decimal_value d < 2 ^ 31 ->
  elements <> [] ->
  Forall (fun e => has_char "/" e = false) elements ->
  Forall2 (fun e index => path_index e = Ok index) elements indices ->
  path_index (d +:+ "'") = Ok (Z.lor (decimal_value d) 0x80000000)
  /\ path_index (d +:+ "h") = Ok (Z.lor (decimal_value d) 0x80000000)
  /\ path_index d = Ok (decimal_value d)
  /\ length indices = length elements
  /\ derive_xprv mnemonic_phrase ("m/" +:+ Py.join "/" elements) testnet
     = (derived_key <-
          apply_path
            (Some (let master_key := fromEntropy (mnemonic_to_seed mnemonic_phrase "") in
                   if testnet then set_network master_key "testnet" else master_key))
            indices ;;
        Py.attr derived_key ExtendedKey).
Proof.
  intros Hd Hlen Hrange Hne Hsep Hidx.
  split; [apply path_index_hardened; auto|].
  split; [apply path_index_hardened; auto|].
  split; [apply path_index_plain; assumption|].
  split; [symmetry; eapply Forall2_length, Hidx|].
  unfold derive_xprv.
  rewrite (startswith_app "m/"). change 2%nat with (String.length "m/").
  rewrite drop_first_app, (split_join _ _ Hne Hsep).
  rewrite (derive_elements_apply_path _ _ _ Hidx). reflexivity.
Qed.

(** C10.  The prefix m/ is optional: for every mnemonic and every path
    suffix [p], [derive_xprv] gives the same result for m/ followed by [p]
    and for [p] alone, the prefix being taken off before the elements are
    read.  A path suffix is what follows the prefix, so it does not start
    with m/ itself (its first element would be the letter m, which is no
    index: [derive_xprv_doubled_prefix], below). *)
Theorem derive_xprv_prefix_optional (mnemonic_phrase p : string) (testnet : bool) :
  Py.startswith p "m/" = false ->
  derive_xprv mnemonic_phrase ("m/" +:+ p) testnet = derive_xprv mnemonic_phrase p testnet.
Proof.
  intros Hp. unfold derive_xprv.
  rewrite (startswith_app "m/"), Hp. change 2%nat with (String.length "m/").
  rewrite drop_first_app. reflexivity.
Qed.

End PathFacts.

Lemma path_string_semantics_witness :
  @path_index "84'" = Ok (Z.lor 84 0x80000000)
  /\ @derive_xprv Standins.padding Standins.trails "fitness" "m/84'/1h/0" true
     = Ok "tprv/2147483732/2147483649/0"%string.
Proof.
  pose proof (@path_string_semantics Standins.padding Standins.trails
                "84" "fitness" true ["84'"; "1h"; "0"]%string [2147483732; 2147483649; 0]
                eq_refl ltac:(discriminate) ltac:(change (0 <= 84 < 2 ^ 31); lia)
                ltac:(discriminate)
                ltac:(repeat constructor) ltac:(repeat constructor))
    as (Hq & _ & _ & _ & Hx).
  split; [exact Hq | exact Hx].
Defined.

Lemma derive_xprv_prefix_optional_witness :
  @derive_xprv Standins.padding Standins.trails "fitness" "m/84'/1'/0'" true
  = @derive_xprv Standins.padding Standins.trails "fitness" "84'/1'/0'" true.
Proof.
  exact (@derive_xprv_prefix_optional Standins.padding Standins.trails
           "fitness" "84'/1'/0'" true eq_refl).
Defined.

(** ** derive_keys.py: seed and master key *)

Section SeedFacts.
Context `{Primitives}.
Hypothesis hmac_sha512_size : forall key msg, length (hmac_sha512 key msg) = 64%nat.

Lemma xor_bytes_length (a b : bytes) :
  length a = 64%nat -> length b = 64%nat -> length (xor_bytes a b) = 64%nat.
Proof. intros Ha Hb. unfold xor_bytes. rewrite length_zip_with. lia. Qed.

Lemma pbkdf2_rounds_length (password u acc : bytes) (n : nat) :
  length acc = 64%nat -> length (pbkdf2_rounds password u acc n) = 64%nat.
Proof.
  revert u acc. induction n as [|n IH]; intros u acc Hacc; [exact Hacc|].
  cbn [pbkdf2_rounds]. apply IH, xor_bytes_length; [exact Hacc | apply hmac_sha512_size].
Qed.

Lemma pbkdf2_block_length (password salt : bytes) (iterations i : nat) :
  length (pbkdf2_block password salt iterations i) = 64%nat.
Proof. unfold pbkdf2_block. apply pbkdf2_rounds_length, hmac_sha512_size. Qed.

(** With 64 bytes asked for, the derived key is the first block. *)
Lemma pbkdf2_one_block (password salt : bytes) (iterations : nat) :
  pbkdf2_hmac_sha512 password salt iterations 64 = pbkdf2_block password salt iterations 1.
Proof.
  unfold pbkdf2_hmac_sha512.
  change (seq 1 ((64 + 63) / 64)) with [1%nat]. cbn [map concat].
  rewrite app_nil_r. apply take_ge. rewrite pbkdf2_block_length. lia.
Qed.

(** C6.  [mnemonic_to_seed] is a function of the mnemonic and the
    passphrase (the same input gives the same seed), its value is PBKDF2
    with HMAC-SHA512 over the NFKD-normalized mnemonic, salted with the word
    mnemonic and the NFKD-normalized passphrase, 2048 iterations, and it is
    64 bytes long. *)
Theorem mnemonic_to_seed_pbkdf2 (mnemonic passphrase : string) :
  mnemonic_to_seed mnemonic passphrase
  = pbkdf2_hmac_sha512 (Py.encode (nfkd mnemonic))
      (Py.encode ("mnemonic" +:+ nfkd passphrase)) 2048 64
  /\ length (mnemonic_to_seed mnemonic passphrase) = 64%nat
  /\ (forall seed1 seed2,
        seed1 = mnemonic_to_seed mnemonic passphrase ->
        seed2 = mnemonic_to_seed mnemonic passphrase -> seed1 = seed2).
Proof.
  split; [reflexivity|]. split.
  - unfold mnemonic_to_seed, to_seed. rewrite pbkdf2_one_block. apply pbkdf2_block_length.
  - intros seed1 seed2 -> ->. reflexivity.
Qed.

(** C3.  The master key deriver computes I = HMAC-SHA512 with the key
    Bitcoin seed over the seed, and returns I[0:32] as the private key and
    I[32:64] as the chain code: two halves of 32 bytes that make up I. *)
Theorem derive_master_key_halves (seed : bytes) :
  let I := hmac_sha512 (Py.encode "Bitcoin seed") seed in
  derive_master_key seed = (Py.slice 0 32 I, Py.slice 32 64 I)
  /\ length (fst (derive_master_key seed)) = 32%nat
  /\ length (snd (derive_master_key seed)) = 32%nat
  /\ fst (derive_master_key seed) ++ snd (derive_master_key seed) = I.
Proof.
  intros I. pose proof (hmac_sha512_size (Py.encode "Bitcoin seed") seed) as HI.
  fold I in HI. unfold derive_master_key, Py.slice. fold I. cbn [fst snd].
  change (32 - 0)%nat with 32%nat. change (64 - 32)%nat with 32%nat. rewrite drop_0.
  assert (Hchain : take 32 (drop 32 I) = drop 32 I).
  { apply take_ge. rewrite length_drop. lia. }
  rewrite Hchain. split; [reflexivity|].
  split; [rewrite length_take; lia|].
  split; [rewrite length_drop; lia|].
  apply take_drop.
Qed.

End SeedFacts.

Section MasterKeyFacts.
Context `{Primitives}.

(** C5, as the code has it.  The master key deriver checks nothing: when
    I[0:32] is zero or not below the curve order, it is returned all the
    same, with I[32:] as chain code; there is no failure and no second HMAC. *)
Theorem derive_master_key_unchecked (seed : bytes) :
  let I := hmac_sha512 (Py.encode "Bitcoin seed") seed in
  invalid_master_key (take 32 I) = true ->
  derive_master_key seed = (take 32 I, drop 32 I)
  /\ invalid_master_key (fst (derive_master_key seed)) = true.
Proof.
  intros I Hinvalid. unfold derive_master_key. fold I.
  split; [reflexivity | exact Hinvalid].
Qed.

End MasterKeyFacts.

Lemma padding_hmac_size (key msg : bytes) :
  length (@hmac_sha512 Standins.padding key msg) = 64%nat.
Proof.
  simpl. unfold Standins.pad_to.
  rewrite length_take, !length_app, repeat_length. lia.
Defined.

Lemma mnemonic_to_seed_pbkdf2_witness :
  length (@mnemonic_to_seed Standins.padding "fitness cupboard" "") = 64%nat.
Proof.
  exact (proj1 (proj2 (@mnemonic_to_seed_pbkdf2 Standins.padding padding_hmac_size
                         "fitness cupboard" ""))).
Defined.

Lemma derive_master_key_halves_witness :
  length (fst (@derive_master_key Standins.padding [x01; x02; x03])) = 32%nat.
Proof.
  exact (proj1 (proj2 (@derive_master_key_halves Standins.padding padding_hmac_size
                         [x01; x02; x03]))).
Defined.

Lemma derive_master_key_unchecked_witness :
  invalid_master_key (fst (@derive_master_key Standins.zero_digest [x01; x02; x03])) = true.
Proof.
  exact (proj2 (@derive_master_key_unchecked Standins.zero_digest [x01; x02; x03] eq_refl)).
Defined.

(** C5, as stated, fails where the left half of the digest is the key zero:
    the deriver returns that key (32 zero bytes) instead of refusing it. *)
Lemma derive_master_key_returns_zero_key :
  @derive_master_key Standins.zero_digest [x01; x02; x03] = (repeat x00 32, repeat x00 32)
  /\ invalid_master_key (fst (@derive_master_key Standins.zero_digest [x01; x02; x03])) = true.
Proof. split; reflexivity. Qed.

(** ** Bytes as numbers *)

Section NumberFacts.
Local Open Scope N_scope.

Lemma byte_of_to_N (b : byte) : byte_of_N (Byte.to_N b) = b.
Proof. unfold byte_of_N. rewrite Byte.of_to_N. reflexivity. Qed.

Lemma byte_lt_256 (b : byte) : Byte.to_N b < 256.
Proof. pose proof (Byte.to_N_bounded b). lia. Qed.

Lemma int_from_bytes_snoc (v : bytes) (b : byte) :
  int_from_bytes (v ++ [b]) = int_from_bytes v * 256 + Byte.to_N b.
Proof. unfold int_from_bytes. rewrite fold_left_app. reflexivity. Qed.

Lemma int_from_bytes_bound (v : bytes) : int_from_bytes v < 256 ^ N.of_nat (length v).
Proof.
  induction v as [|b v IH] using rev_ind; [reflexivity|].
  rewrite int_from_bytes_snoc, length_app, Nat.add_1_r, Nat2N.inj_succ, N.pow_succ_r'.
  pose proof (byte_lt_256 b). lia.
Qed.

Lemma int_from_bytes_cons (b : byte) (v : bytes) :
  int_from_bytes (b :: v) = Byte.to_N b * 256 ^ N.of_nat (length v) + int_from_bytes v.
Proof.
  induction v as [|c v IH] using rev_ind; [unfold int_from_bytes; simpl; lia|].
  rewrite app_comm_cons, !int_from_bytes_snoc, IH.
  rewrite length_app, Nat.add_1_r, Nat2N.inj_succ, N.pow_succ_r'. lia.
Qed.

Lemma to_bytes_zero (len : nat) : to_bytes len 0 = repeat x00 len.
Proof.
  induction len as [|len IH]; [reflexivity|].
  cbn [to_bytes repeat]. change (0 / 256) with 0. rewrite IH.
  change (byte_of_N (0 mod 256)) with x00. symmetry. apply repeat_cons.
Qed.

(** Leading zero bytes are what [to_bytes] adds to a number that needs
    fewer bytes. *)
Lemma to_bytes_pad (pad len : nat) (n : N) :
  n < 256 ^ N.of_nat len -> to_bytes (pad + len) n = repeat x00 pad ++ to_bytes len n.
Proof.
  revert n. induction len as [|len IH]; intros n Hn.
  - simpl in Hn. assert (n = 0) as -> by lia.
    rewrite Nat.add_0_r, app_nil_r. apply to_bytes_zero.
  - rewrite Nat.add_succ_r. cbn [to_bytes]. rewrite IH, app_assoc; [reflexivity|].
    apply N.Div0.div_lt_upper_bound.
    rewrite Nat2N.inj_succ, N.pow_succ_r' in Hn. exact Hn.
Qed.

Lemma to_bytes_int_from_bytes (v : bytes) : to_bytes (length v) (int_from_bytes v) = v.
Proof.
  induction v as [|b v IH] using rev_ind; [reflexivity|].
  rewrite length_app, Nat.add_1_r, int_from_bytes_snoc. cbn [to_bytes].
  pose proof (byte_lt_256 b).
  assert (Hlow : (int_from_bytes v * 256 + Byte.to_N b) mod 256 = Byte.to_N b).
  { rewrite N.add_comm, N.Div0.mod_add. apply N.mod_small. lia. }
  rewrite Hlow, N.div_add_l, N.div_small, N.add_0_r, IH, byte_of_to_N by lia.
  reflexivity.
Qed.

(** The number of bytes [b58decode] gives a number: the bytes from its
    first non-zero byte on. *)
Lemma byte_count (b : byte) (v : bytes) :
  b <> x00 ->
  N.to_nat ((bit_length (int_from_bytes (b :: v)) + 7) / 8) = length (b :: v).
Proof.
  intros Hb. set (n := int_from_bytes (b :: v)).
  assert (Hb' : 1 <= Byte.to_N b).
  { destruct (N.eq_dec (Byte.to_N b) 0) as [H0|]; [|lia].
    exfalso. apply Hb. rewrite <- (byte_of_to_N b), H0. reflexivity. }
  assert (Hlo : 256 ^ N.of_nat (length v) <= n).
  { unfold n. rewrite int_from_bytes_cons. nia. }
  assert (Hhi : n < 256 ^ N.of_nat (length (b :: v))) by apply int_from_bytes_bound.
  assert (Hpos : 0 < n).
  { pose proof (N.pow_nonzero 256 (N.of_nat (length v))). lia. }
  change 256 with (2 ^ 8) in Hlo, Hhi. rewrite <- N.pow_mul_r in Hlo, Hhi.
  apply N.log2_le_pow2 in Hlo; [|exact Hpos].
  apply N.log2_lt_pow2 in Hhi; [|exact Hpos].
  unfold bit_length. rewrite N.size_log2 by lia.
  cbn [length] in *. rewrite Nat2N.inj_succ in Hhi.
  assert (Hq : (N.succ (N.log2 n) + 7) / 8 = N.succ (N.of_nat (length v))).
  { symmetry. apply (N.div_unique _ _ _ (N.log2 n - 8 * N.of_nat (length v))); lia. }
  rewrite Hq. lia.
Qed.

Lemma lstrip_byte_split (v : bytes) :
  v = repeat x00 (length v - length (lstrip_byte x00 v)) ++ lstrip_byte x00 v
  /\ (length (lstrip_byte x00 v) <= length v)%nat.
Proof.
  induction v as [|b v [IHv IHl]]; [split; reflexivity|].
  cbn [lstrip_byte]. destruct (Byte.eqb b x00) eqn:Hb.
  - apply Byte.byte_dec_bl in Hb. subst b. cbn [length]. split; [|lia].
    replace (S (length v) - length (lstrip_byte x00 v))%nat
      with (S (length v - length (lstrip_byte x00 v))) by lia.
    cbn [repeat app]. f_equal. exact IHv.
  - rewrite Nat.sub_diag. split; [reflexivity | lia].
Qed.

Lemma lstrip_byte_head (v : bytes) :
  lstrip_byte x00 v = [] \/ exists b v', lstrip_byte x00 v = b :: v' /\ b <> x00.
Proof.
  induction v as [|b v IH]; [left; reflexivity|].
  cbn [lstrip_byte]. destruct (Byte.eqb b x00) eqn:Hb; [exact IH|].
  right. exists b, v. split; [reflexivity|]. intros ->. discriminate.
Qed.

End NumberFacts.

(** ** Base58 *)

Section Base58Facts.
Local Open Scope N_scope.
Import Base58.

Lemma string_length_app (s t : string) :
  String.length (s +:+ t) = (String.length s + String.length t)%nat.
Proof. induction s as [|a s IH]; [reflexivity | exact (f_equal S IH)]. Qed.

Lemma string_app_assoc (s t u : string) : (s +:+ t) +:+ u = s +:+ (t +:+ u).
Proof. induction s as [|a s IH]; [reflexivity | exact (f_equal (String a) IH)]. Qed.

(** The decode map reads every digit of the alphabet back. *)
Lemma alphabet_index_at (d : N) : d < 58 -> alphabet_index (alphabet_at d) = Some d.
Proof.
  intros Hd. rewrite <- (N2Nat.id d). assert (Hn : (N.to_nat d < 58)%nat) by lia.
  generalize dependent (N.to_nat d). clear Hd d. intros n Hn.
  do 58 (destruct n as [|n]; [reflexivity|]). lia.
Qed.

Lemma alphabet_at_not_one (d : N) : 0 < d < 58 -> Ascii.eqb (alphabet_at d) "1" = false.
Proof.
  intros Hd. apply Ascii.eqb_neq. intros Hone.
  pose proof (alphabet_index_at d ltac:(lia)) as Hidx.
  rewrite Hone in Hidx. change (alphabet_index "1") with (Some 0) in Hidx.
  inversion Hidx. lia.
Qed.

Lemma b58encode_int_loop_zero (fuel : nat) (out : string) :
  b58encode_int_loop fuel 0 out = out.
Proof. destruct fuel; reflexivity. Qed.

Lemma b58encode_int_loop_out (fuel : nat) (i : N) (out : string) :
  b58encode_int_loop fuel i out = b58encode_int_loop fuel i EmptyString +:+ out.
Proof.
  revert i out. induction fuel as [|fuel IH]; intros i out; [reflexivity|].
  cbn [b58encode_int_loop]. destruct (i =? 0); [reflexivity|].
  rewrite (IH _ (String _ out)), (IH _ (String _ EmptyString)), string_app_assoc.
  reflexivity.
Qed.

(** One turn of the loop, for a number that is not zero: the last digit
    goes behind the digits of the quotient. *)
Lemma b58encode_int_loop_step (fuel : nat) (i : N) :
  i <> 0 ->
  b58encode_int_loop (S fuel) i EmptyString
  = b58encode_int_loop fuel (i / 58) EmptyString
    +:+ String (alphabet_at (i mod 58)) EmptyString.
Proof.
  intros Hi. cbn [b58encode_int_loop].
  destruct (N.eqb_spec i 0) as [|_]; [contradiction|].
  apply b58encode_int_loop_out.
Qed.

Lemma quotient_fits (fuel : nat) (i : N) :
  i < 2 ^ N.of_nat (S fuel) -> i / 58 < 2 ^ N.of_nat fuel.
Proof.
  intros Hi. rewrite Nat2N.inj_succ, N.pow_succ_r' in Hi.
  apply N.Div0.div_lt_upper_bound. lia.
Qed.

Lemma b58decode_int_loop_app (s t : string) (decimal : N) :
  b58decode_int_loop (s +:+ t) decimal
  = Py.bind (b58decode_int_loop s decimal) (fun n => b58decode_int_loop t n).
Proof.
  revert decimal. induction s as [|a s IH]; intros decimal; [reflexivity|].
  simpl. destruct (alphabet_index a); [apply IH | reflexivity].
Qed.

Lemma string_forall_app (test : ascii -> bool) (s t : string) :
  string_forall test (s +:+ t) = string_forall test s && string_forall test t.
Proof.
  induction s as [|a s IH]; [reflexivity|].
  change (string_forall test (String a (s +:+ t))
          = string_forall test (String a s) && string_forall test t).
  cbn [string_forall]. rewrite IH, andb_assoc. reflexivity.
Qed.

Lemma b58encode_int_loop_alphabet (fuel : nat) (i : N) (out : string) :
  string_forall is_base58_char out = true ->
  string_forall is_base58_char (b58encode_int_loop fuel i out) = true.
Proof.
  revert i out. induction fuel as [|fuel IH]; intros i out Hout; [exact Hout|].
  cbn [b58encode_int_loop]. destruct (i =? 0); [exact Hout|].
  apply IH. cbn [string_forall]. rewrite Hout, andb_true_r.
  unfold is_base58_char. rewrite alphabet_index_at; [reflexivity|].
  apply N.mod_lt. lia.
Qed.

Lemma b58encode_alphabet (v : bytes) : string_forall is_base58_char (b58encode v) = true.
Proof.
  unfold b58encode, b58encode_int. rewrite string_forall_app.
  rewrite b58encode_int_loop_alphabet by reflexivity. rewrite andb_true_r.
  induction (length v - length (lstrip_byte x00 v))%nat as [|n IH]; [reflexivity|].
  cbn [repeat_char string_forall]. rewrite IH. reflexivity.
Qed.

(** A character of the alphabet is ASCII and no white space, so the
    [rstrip] and the [scrub_input] of the decoder leave the encoder's text
    as it is. *)
Lemma base58_char_plain (c : ascii) :
  is_base58_char c = true ->
  Py.is_space c = false /\ Py.is_str_space c = false /\ (N_of_ascii c <? 128) = true.
Proof.
  destruct c as [[] [] [] [] [] [] [] []]; vm_compute;
    first [discriminate | intros _; repeat split].
Qed.

Lemma rstrip_base58 (s : string) :
  string_forall is_base58_char s = true -> Py.rstrip s = s.
Proof.
  induction s as [|c s IH]; [reflexivity|].
  cbn [string_forall Py.rstrip]. intros [Hc Hs]%andb_true_iff. rewrite (IH Hs).
  destruct s; [|reflexivity].
  destruct (base58_char_plain c Hc) as (-> & _ & _). reflexivity.
Qed.

Lemma str_rstrip_base58 (s : string) :
  string_forall is_base58_char s = true -> Py.str_rstrip s = s.
Proof.
  induction s as [|c s IH]; [reflexivity|].
  cbn [string_forall Py.str_rstrip]. intros [Hc Hs]%andb_true_iff. rewrite (IH Hs).
  destruct s; [|reflexivity].
  destruct (base58_char_plain c Hc) as (_ & -> & _). reflexivity.
Qed.

Lemma isascii_base58 (s : string) :
  string_forall is_base58_char s = true -> Py.isascii s = true.
Proof.
  induction s as [|c s IH]; [reflexivity|].
  cbn [string_forall Py.isascii]. intros [Hc Hs]%andb_true_iff. rewrite (IH Hs).
  destruct (base58_char_plain c Hc) as (_ & _ & ->). reflexivity.
Qed.

(** The loop has turns enough, and decoding its digits gives the number
    back. *)
Lemma b58decode_int_loop_encode (fuel : nat) (i : N) :
  i < 2 ^ N.of_nat fuel ->
  b58decode_int_loop (b58encode_int_loop fuel i EmptyString) 0 = Ok i.
Proof.
  revert i. induction fuel as [|fuel IH]; intros i Hi.
  - simpl in Hi. assert (i = 0) as -> by lia. reflexivity.
  - destruct (N.eq_dec i 0) as [->|Hnz]; [reflexivity|].
    rewrite (b58encode_int_loop_step _ _ Hnz).
    rewrite b58decode_int_loop_app, (IH _ (quotient_fits _ _ Hi)).
    cbn [Py.bind b58decode_int_loop].
    rewrite alphabet_index_at by (apply N.mod_lt; lia).
    f_equal. rewrite N.mul_comm. symmetry. apply N.div_mod. lia.
Qed.

Lemma b58decode_encode_int (fuel : nat) (i : N) :
  i < 2 ^ N.of_nat fuel ->
  b58decode_int (b58encode_int_loop fuel i EmptyString) = Ok i.
Proof.
  intros Hi. unfold b58decode_int.
  rewrite rstrip_base58 by (apply b58encode_int_loop_alphabet; reflexivity).
  apply b58decode_int_loop_encode, Hi.
Qed.

(** The digits of a number that is not zero do not start with the digit
    zero, the character 1. *)
Lemma b58encode_int_head (fuel : nat) (i : N) :
  i <> 0 -> i < 2 ^ N.of_nat fuel ->
  exists c s, b58encode_int_loop fuel i EmptyString = String c s /\ Ascii.eqb c "1" = false.
Proof.
  revert i. induction fuel as [|fuel IH]; intros i Hnz Hi.
  - simpl in Hi. lia.
  - rewrite (b58encode_int_loop_step _ _ Hnz).
    destruct (N.eq_dec (i / 58) 0) as [Hq|Hq].
    + rewrite Hq, b58encode_int_loop_zero. simpl.
      exists (alphabet_at (i mod 58)), EmptyString. split; [reflexivity|].
      apply alphabet_at_not_one.
      pose proof (N.div_mod i 58 ltac:(lia)). pose proof (N.mod_lt i 58 ltac:(lia)). lia.
    + destruct (IH _ Hq (quotient_fits _ _ Hi)) as (c & s & -> & Hc).
      simpl. eauto.
Qed.

Lemma lstrip_char_repeat (c : ascii) (n : nat) (s : string) :
  match s with
  | EmptyString => True
  | String a _ => Ascii.eqb a c = false
  end ->
  lstrip_char c (repeat_char c n +:+ s) = s.
Proof.
  intros Hs. induction n as [|n IH]; simpl.
  - destruct s as [|a s]; [reflexivity|]. simpl. rewrite Hs. reflexivity.
  - rewrite Ascii.eqb_refl. exact IH.
Qed.

Lemma repeat_char_length (c : ascii) (n : nat) : String.length (repeat_char c n) = n.
Proof. induction n as [|n IH]; simpl; [reflexivity | rewrite IH; reflexivity]. Qed.

Lemma size_fits (i : N) : i < 2 ^ N.of_nat (N.to_nat (N.size i)).
Proof. rewrite N2Nat.id. apply N.size_gt. Qed.

(** Decoding what [b58encode] wrote gives the bytes back, leading zero
    bytes included. *)
Lemma b58decode_b58encode (v : bytes) : b58decode (b58encode v) = Ok v.
Proof.
  pose proof (b58encode_alphabet v) as Halphabet.
  unfold b58decode. cbv zeta.
  rewrite (str_rstrip_base58 _ Halphabet). unfold scrub_input.
  rewrite (isascii_base58 _ Halphabet). cbn [Py.bind]. clear Halphabet.
  unfold b58encode, b58encode_int.
  destruct (lstrip_byte_split v) as [Hv Hlen].
  set (rest := lstrip_byte x00 v) in *.
  set (pad := (length v - length rest)%nat) in *.
  set (digits := b58encode_int_loop (N.to_nat (N.size (int_from_bytes rest)))
                   (int_from_bytes rest) EmptyString).
  assert (Hstrip : lstrip_char "1" (repeat_char "1" pad +:+ digits) = digits).
  { apply lstrip_char_repeat.
    destruct (N.eq_dec (int_from_bytes rest) 0) as [Hz|Hnz].
    - unfold digits. rewrite Hz. exact I.
    - destruct (b58encode_int_head _ _ Hnz (size_fits _)) as (c & s & Hd & Hc).
      fold digits in Hd. rewrite Hd. exact Hc. }
  rewrite Hstrip, string_length_app, repeat_char_length.
  replace (pad + String.length digits - String.length digits)%nat with pad by lia.
  unfold digits at 1. rewrite (b58decode_encode_int _ _ (size_fits _)). cbn [Py.bind].
  f_equal. transitivity (repeat x00 pad ++ rest); [|symmetry; exact Hv].
  destruct (lstrip_byte_head v) as [Hnil | (b & v' & Hcons & Hb)]; fold rest in Hnil || fold rest in Hcons.
  - rewrite Hnil. cbn. rewrite Nat.add_0_r, app_nil_r. apply to_bytes_zero.
  - rewrite Hcons, (byte_count _ _ Hb), to_bytes_pad by apply int_from_bytes_bound.
    rewrite to_bytes_int_from_bytes. reflexivity.
Qed.

End Base58Facts.

(** ** misc/recovery/fix_keys.py: the testnet WIF text *)

Section WifFacts.
Context `{Primitives}.

(** C1.  For every private key, the testnet encoder of fix_keys.py writes
    Base58(payload || checksum), the payload being 0xEF, the key and the
    compression flag 0x01, and the checksum the first four bytes of the
    double SHA256 of the payload: the specification's WIF for the test
    network and a compressed key, whose version byte for the main network
    is 0x80.  Decoding the text gives payload and checksum back. *)
Theorem wif_key_testnet_encoding (private_key_bytes : bytes) :
  let payload := [xef] ++ private_key_bytes ++ [x01] in
  let checksum := take 4 (sha256 (sha256 payload)) in
  wif_key private_key_bytes = Base58.b58encode (payload ++ checksum)
  /\ Base58.b58decode (wif_key private_key_bytes) = Ok (payload ++ checksum)
  /\ wif_key private_key_bytes = toWIF private_key_bytes test true
  /\ wif_version test = xef
  /\ wif_version main = x80.
Proof.
  intros payload checksum.
  assert (Hwif : wif_key private_key_bytes = Base58.b58encode (payload ++ checksum))
    by reflexivity.
  split; [exact Hwif|].
  split; [rewrite Hwif; apply b58decode_b58encode|].
  repeat split.
Qed.

(** C4.  Encoding a 32-byte private key as WIF, Base58-decoding the text
    and dropping the version byte, the compression flag and the checksum
    gives the private key back. *)
Theorem wif_round_trip (private_key_bytes : bytes) :
  length private_key_bytes = 32%nat ->
  fromWIF (wif_key private_key_bytes) = Ok private_key_bytes.
Proof.
  intros Hlen. unfold fromWIF, wif_key.
  rewrite b58decode_b58encode. cbn [Py.bind]. f_equal.
  unfold Py.slice. change (33 - 1)%nat with 32%nat.
  cbn [app drop]. rewrite <- app_assoc. apply take_app_length'. symmetry. exact Hlen.
Qed.

Context `{Bip32Utils}.

(** X1.  The record of one key: its WIF text is the encoding of the raw private
    key of the derived key (the detour through hex text changes nothing),
    and its hex text is the same key. *)
Lemma derive_testnet_key_record (master_key derived_key : BIP32Key) (i : nat) :
  derive_indices (Some master_key)
    [84 + 0x80000000; 1 + 0x80000000; 0 + 0x80000000; 0; Z.of_nat i]
  = Ok (Some derived_key) ->
  derive_testnet_key master_key i
  = Ok {| tk_path := "m/84'/1'/0'/0/" +:+ Py.str i;
          tk_privkey_wif := toWIF (PrivateKey derived_key) test true;
          tk_privkey_hex := Py.hex (PrivateKey derived_key);
          tk_pubkey := Py.hex (PublicKey derived_key) |}.
Proof.
  intros Hderived. unfold derive_testnet_key.
  rewrite Hderived. cbn [Py.bind Py.attr Py.call]. rewrite fromhex_hex. reflexivity.
Qed.

End WifFacts.

Lemma wif_round_trip_witness :
  fromWIF (@wif_key Standins.padding (repeat x07 32)) = Ok (repeat x07 32).
Proof. exact (@wif_round_trip Standins.padding (repeat x07 32) eq_refl). Defined.

(** ** Batches: import_keys.py and create_valid_descriptors.py *)

Section BatchFacts.


Lemma for_append_first_failure {A B} (body : A -> result B)
    (before : list A) (x : A) (after : list A) (e : exn) :
  Forall (fun x' => exists y, body x' = Ok y) before ->
  body x = Raise e ->
  Py.for_append body (before ++ x :: after) = Raise e.
Proof.
  intros Hbefore Hx. induction Hbefore as [|x' before [y Hy] _ IH].
  - cbn [app Py.for_append]. rewrite Hx. reflexivity.
  - cbn [app Py.for_append]. rewrite Hy, IH. reflexivity.
Qed.

Lemma range_split (n i : nat) :
  (i < n)%nat -> Py.range n = seq 0 i ++ i :: seq (S i) (n - S i).
Proof.
  intros Hi. unfold Py.range.
  replace n with (i + S (n - S i))%nat at 1 by lia.
  rewrite seq_app. reflexivity.
Qed.

Context `{Primitives} `{Bip32Utils} `{Node}.

Lemma lookup_outcomes_cons (start : nat) (key : testnet_key) (keys : list testnet_key) :
  lookup_outcomes start (key :: keys)
  = get_descriptor_with_checksum (tk_privkey_wif key) ("specter_key_" +:+ Py.str start)
    :: lookup_outcomes (S start) keys.
Proof.
  unfold lookup_outcomes. cbn [imap]. rewrite Nat.add_0_r. f_equal.
  apply imap_ext. intros j key0 _. simpl. rewrite Nat.add_succ_r. reflexivity.
Qed.



End BatchFacts.



(** ** Key objects: what a derivation leaves alone *)

Section ObjectFacts.
Import Objects.
Context `{Primitives} `{Curve}.

Lemma fresh_unused (s : store) : s !! fresh (dom s) = None.
Proof. apply not_elem_of_dom, is_fresh. Qed.

Lemma insert_fresh_keeps (s : store) (o : KeyObject) (l : loc) :
  is_Some (s !! l) -> <[fresh (dom s) := o]> s !! l = s !! l.
Proof.
  intros [o' Hl]. apply lookup_insert_ne. intros Heq.
  rewrite <- Heq, fresh_unused in Hl. discriminate.
Qed.

Lemma same_fields_refl (o : KeyObject) : same_fields o o.
Proof. unfold same_fields. repeat split. Qed.

(** One derivation: the store grows by the child or stays as it is. *)
Lemma ChildKey_obj_cases (s : store) (parent : loc) (index : Z) :
  (exists child, ChildKey_obj s parent index
                 = (<[fresh (dom s) := {| key := child; network := None |}]> s,
                    Ok (fresh (dom s))))
  \/ (exists e, ChildKey_obj s parent index = (s, Raise e)).
Proof.
  unfold ChildKey_obj. destruct (s !! parent) as [o|]; [|right; eauto].
  destruct (deriveChild _ _ _) as [child|e]; [left | right]; eauto.
Qed.

Lemma ChildKey_obj_keeps (s : store) (parent : loc) (index : Z) (l : loc) :
  is_Some (s !! l) -> fst (ChildKey_obj s parent index) !! l = s !! l.
Proof.
  intros Hl.
  destruct (ChildKey_obj_cases s parent index) as [[child ->] | [e ->]];
    [apply insert_fresh_keeps, Hl | reflexivity].
Qed.

(** The loops built on [ChildKey]: whatever they derive, the objects there
    were before are what they were. *)
Lemma derive_indices_obj_keeps (s : store) (derived_key : loc) (indices : list Z) (l : loc) :
  is_Some (s !! l) -> fst (derive_indices_obj s derived_key indices) !! l = s !! l.
Proof.
  revert s derived_key. induction indices as [|index rest IH]; intros s k Hl; [reflexivity|].
  cbn [derive_indices_obj].
  pose proof (ChildKey_obj_keeps s k index l Hl) as Hkeeps.
  destruct (ChildKey_obj s k index) as [s' [child|e]]; cbn [fst] in *.
  - rewrite IH; [exact Hkeeps | rewrite Hkeeps; exact Hl].
  - exact Hkeeps.
Qed.

Lemma derive_leaves_obj_keeps (s : store) (master_key : loc) (turns : list nat) (l : loc) :
  is_Some (s !! l) -> fst (derive_leaves_obj s master_key turns) !! l = s !! l.
Proof.
  revert s. induction turns as [|i rest IH]; intros s Hl; [reflexivity|].
  cbn [derive_leaves_obj].
  pose proof (derive_indices_obj_keeps s master_key
                [84 + 0x80000000; 1 + 0x80000000; 0 + 0x80000000; 0; Z.of_nat i] l Hl) as Hstep.
  destruct (derive_indices_obj s master_key _) as [s' [leaf|e]]; cbn [fst] in Hstep.
  - assert (Hl' : is_Some (s' !! l)) by (rewrite Hstep; exact Hl).
    pose proof (IH s' Hl') as Hrest.
    destruct (derive_leaves_obj s' master_key rest) as [s'' [leaves|e]]; cbn [fst] in *;
      rewrite Hrest; exact Hstep.
  - exact Hstep.
Qed.

(** Lines 17-27 of create_descriptors.py: after the whole batch, the master
    key is the key of the seed, marked testnet, as it was before the first
    derivation. *)
Lemma derive_keys_obj_master (s : store) (seed : bytes) (num_keys : nat) :
  let '(s', master_key, _) := derive_keys_obj s seed num_keys in
  s' !! master_key = Some {| key := masterKey seed; network := Some "testnet"%string |}.
Proof.
  unfold derive_keys_obj, fromEntropy_obj, set_network_obj.
  rewrite lookup_insert_eq. cbn [key].
  set (l := fresh (dom s)). set (o := {| key := masterKey seed; network := Some _ |}).
  set (s1 := <[l := o]> (<[l := _]> s)).
  assert (Hl : s1 !! l = Some o) by apply lookup_insert_eq.
  pose proof (derive_leaves_obj_keeps s1 l (Py.range num_keys) l ltac:(rewrite Hl; eauto)) as Hkeeps.
  destruct (derive_leaves_obj s1 l (Py.range num_keys)) as [s' leaves]; cbn [fst] in Hkeeps.
  rewrite Hkeeps. exact Hl.
Qed.

(** [obj.network = name] changes the object at [l], where it is, and no
    other. *)
Lemma set_network_obj_in_place (s : store) (l : loc) (name : string) (o : KeyObject) :
  s !! l = Some o ->
  set_network_obj s l name !! l = Some {| key := key o; network := Some name |}
  /\ forall l', l' <> l -> set_network_obj s l name !! l' = s !! l'.
Proof.
  intros Hl. unfold set_network_obj. rewrite Hl. split.
  - apply lookup_insert_eq.
  - intros l' Hne. apply lookup_insert_ne. congruence.
Qed.

(** C9, as the code has it.  A key object is not immutable once constructed:
    the assignment [master_key.network = "testnet"], which the scripts make
    after [fromEntropy] has built the master key, changes that object where
    it is (its key stays, and so does every other object); in the batch of
    create_descriptors.py the master key is built without a network and is
    the same key marked testnet in the end.  What changes nothing is child
    derivation: [parent.ChildKey(index)], for every parent and index, leaves
    private key, chain code, depth, fingerprint, index and network of the
    parent and every other object there was as they were, and its child
    (when there is one) is an object that was not there before, other than
    the parent; a derivation that fails changes nothing. *)
Theorem key_object_changes (s : store) (l parent : loc) (name : string) (index : Z)
    (seed : bytes) (num_keys : nat) :
  (forall o, s !! l = Some o ->
     set_network_obj s l name !! l = Some {| key := key o; network := Some name |}
     /\ forall l', l' <> l -> set_network_obj s l name !! l' = s !! l')
  /\ (fst (fromEntropy_obj s seed) !! snd (fromEntropy_obj s seed)
      = Some {| key := masterKey seed; network := None |}
      /\ snd (fst (derive_keys_obj s seed num_keys)) = snd (fromEntropy_obj s seed)
      /\ fst (fst (derive_keys_obj s seed num_keys)) !! snd (fromEntropy_obj s seed)
         = Some {| key := masterKey seed; network := Some "testnet"%string |})
  /\ (forall l', is_Some (s !! l') -> fst (ChildKey_obj s parent index) !! l' = s !! l')
  /\ (forall o, s !! parent = Some o ->
        exists o', fst (ChildKey_obj s parent index) !! parent = Some o' /\ same_fields o o')
  /\ match snd (ChildKey_obj s parent index) with
     | Ok child =>
         s !! child = None
         /\ is_Some (fst (ChildKey_obj s parent index) !! child)
         /\ (is_Some (s !! parent) -> child <> parent)
     | Raise _ => fst (ChildKey_obj s parent index) = s
     end.
Proof.
  assert (Hkeeps : forall l', is_Some (s !! l') -> fst (ChildKey_obj s parent index) !! l' = s !! l')
    by (intros l'; apply ChildKey_obj_keeps).
  split; [intros o; apply set_network_obj_in_place|].
  split; [|split; [exact Hkeeps|split]].
  - split; [apply lookup_insert_eq|].
    pose proof (derive_keys_obj_master s seed num_keys) as Hmaster.
    unfold derive_keys_obj in *. cbn [fromEntropy_obj fst snd] in *.
    destruct (derive_leaves_obj _ _ _) as [s' leaves]. cbn [fst snd].
    split; [reflexivity | exact Hmaster].
  - intros o Ho. exists o. split; [|apply same_fields_refl].
    rewrite <- Ho. apply Hkeeps. rewrite Ho. eauto.
  - destruct (ChildKey_obj_cases s parent index) as [[child ->] | [e ->]]; cbn [fst snd].
    + split; [apply fresh_unused|]. split; [rewrite lookup_insert_eq; eauto|].
      intros [o Ho] Heq. rewrite <- Heq, fresh_unused in Ho. discriminate.
    + reflexivity.
Qed.

End ObjectFacts.

Lemma key_object_changes_witness :
  Objects.set_network_obj Standins.one_master 1 "mainnet" !! 1%positive
  = Some {| Objects.key := @Objects.masterKey Standins.padding [x01; x02; x03];
            Objects.network := Some "mainnet"%string |}.
Proof.
  refine (proj1 (proj1 (@key_object_changes Standins.padding Standins.marked_keys
                          Standins.one_master 1 1 "mainnet" 0 [] 0)
                   {| Objects.key := @Objects.masterKey Standins.padding [x01; x02; x03];
                      Objects.network := Some "testnet"%string |} _)).
  vm_compute. reflexivity.
Defined.

(** C9, as stated, fails: the master key create_descriptors.py has built
    holds no network, and the same object, at the same place, holds the
    network testnet when the script is done with it. *)
Lemma master_key_changed_after_construction :
  fst (@Objects.fromEntropy_obj Standins.padding ∅ [x01; x02; x03]) !! 1%positive
  = Some {| Objects.key := @Objects.masterKey Standins.padding [x01; x02; x03];
            Objects.network := None |}
  /\ snd (@Objects.fromEntropy_obj Standins.padding ∅ [x01; x02; x03]) = 1%positive
  /\ snd (fst (@Objects.derive_keys_obj Standins.padding Standins.marked_keys
                 ∅ [x01; x02; x03] 1)) = 1%positive
  /\ fst (fst (@Objects.derive_keys_obj Standins.padding Standins.marked_keys
                 ∅ [x01; x02; x03] 1)) !! 1%positive
     = Some {| Objects.key := @Objects.masterKey Standins.padding [x01; x02; x03];
               Objects.network := Some "testnet"%string |}.
Proof. repeat split; vm_compute; reflexivity. Qed.

(** ** The leaf keys of the three batch scripts *)

Section LeafFacts.
Context `{Primitives} `{Bip32Utils}.

Lemma derive_indices_snoc (parent : option BIP32Key) (indices : list Z) (index : Z) :
  derive_indices parent (indices ++ [index])
  = (derived_key <- derive_indices parent indices ;;
     Py.call derived_key (fun k => ChildKey k index)).
Proof.
  revert parent. induction indices as [|first rest IH]; intros parent.
  - cbn [app derive_indices Py.bind]. destruct (Py.call parent _); reflexivity.
  - cbn [app derive_indices]. destruct (Py.call parent _) as [child|e]; [|reflexivity].
    cbn [Py.bind]. apply IH.
Qed.

(** The loop of import_keys.py over the text of [base_path] is the loop of
    the other two scripts over the indices the text spells. *)
Lemma derive_base_path_indices (parent : option BIP32Key) :
  derive_base_path parent (Py.split "/" base_path)
  = derive_indices parent [84 + 0x80000000; 1 + 0x80000000; 0 + 0x80000000; 0].
Proof.
  change (Py.split "/" base_path) with ["84'"; "1'"; "0'"; "0"]%string.
  cbn [derive_base_path derive_indices].
  change (base_path_index "84'") with (Ok (84 + 0x80000000)).
  change (base_path_index "1'") with (Ok (1 + 0x80000000)).
  change (base_path_index "0'") with (Ok (0 + 0x80000000)).
  change (base_path_index "0") with (Ok (A:=Z) 0).
  reflexivity.
Qed.

(** X2.  import_keys.py and create_descriptors.py derive the same leaf key
    for index [i]: the descriptor of the one is wpkh( ) around the WIF text of
    the other, and they fail together. *)
Theorem descriptor_wraps_individual_key (master_key : BIP32Key) (i : nat) :
  Py.rmap desc (derive_key_with_descriptor master_key i)
  = Py.rmap (fun record => "wpkh(" +:+ ik_privkey_wif record +:+ ")")
      (derive_individual_key master_key i).
Proof.
  unfold derive_key_with_descriptor, derive_individual_key.
  rewrite derive_base_path_indices.
  change [84 + 0x80000000; 1 + 0x80000000; 0 + 0x80000000; 0; Z.of_nat i]
    with ([84 + 0x80000000; 1 + 0x80000000; 0 + 0x80000000; 0] ++ [Z.of_nat i]).
  rewrite derive_indices_snoc.
  destruct (derive_indices (Some master_key) _) as [derived_key|e]; [|reflexivity].
  cbn [Py.bind]. destruct (Py.call derived_key _) as [[final_key|]|e]; reflexivity.
Qed.

End LeafFacts.

Lemma derive_testnet_key_record_witness :
  @derive_testnet_key Standins.padding Standins.trails [] 3
  = Ok {| tk_path := "m/84'/1'/0'/0/" +:+ Py.str 3;
          tk_privkey_wif :=
            @toWIF Standins.padding
              (@PrivateKey Standins.trails [2147483732; 2147483649; 2147483648; 0; 3])
              test true;
          tk_privkey_hex :=
            Py.hex (@PrivateKey Standins.trails [2147483732; 2147483649; 2147483648; 0; 3]);
          tk_pubkey :=
            Py.hex (@PublicKey Standins.trails [2147483732; 2147483649; 2147483648; 0; 3]) |}.
Proof.
  exact (@derive_testnet_key_record Standins.padding Standins.trails
           [] [2147483732; 2147483649; 2147483648; 0; 3] 3 eq_refl).
Defined.

Section SiblingFacts.
Context `{Primitives} `{Bip32Utils}.

Lemma for_append_inv {A B} (body : A -> result B) (xs : list A) (ys : list B) :
  Py.for_append body xs = Ok ys -> Forall2 (fun x y => body x = Ok y) xs ys.
Proof.
  revert ys. induction xs as [|x xs IH]; intros ys Hys.
  - inversion Hys. constructor.
  - cbn [Py.for_append] in Hys.
    apply bind_Ok in Hys as (y & Hy & Hrest).
    apply bind_Ok in Hrest as (out & Hout & Hys). inversion Hys; subst.
    constructor; [exact Hy | apply IH, Hout].
Qed.

Lemma call_Ok {A B} (obj : option A) (method : A -> result B) (b : B) :
  Py.call obj method = Ok b -> exists a, obj = Some a /\ method a = Ok b.
Proof. destruct obj as [a|]; simpl; [eauto | discriminate]. Qed.

(** X3.  The batch of import_keys.py, when it succeeds: there is one record per
    index, and record [i] is that of the child with index [i] of one parent,
    the key at 84'/1'/0'/0 below the master key, under the path that ends
    in [i]. *)
Theorem individual_keys_of_one_parent (mnemonic_phrase : string) (num_keys : nat)
    (records : list individual_key) (i : nat) (record : individual_key) :
  derive_individual_keys mnemonic_phrase num_keys = Ok records ->
  records !! i = Some record ->
  length records = num_keys
  /\ exists parent final_key,
       derive_indices
         (Some (set_network (fromEntropy (to_seed mnemonic_phrase "")) "testnet"))
         [84 + 0x80000000; 1 + 0x80000000; 0 + 0x80000000; 0] = Ok (Some parent)
       /\ ChildKey parent (Z.of_nat i) = Ok (Some final_key)
       /\ record = {| ik_path := "m/84'/1'/0'/0/" +:+ Py.str i;
                      ik_privkey_wif := WalletImportFormat final_key;
                      ik_pubkey := Py.hex (PublicKey final_key);
                      ik_address := Address final_key |}.
Proof.
  intros Hbatch Hi. apply for_append_inv in Hbatch.
  split; [rewrite <- (Forall2_length _ _ _ Hbatch); apply length_seq|].
  destruct (Forall2_lookup_r _ _ _ _ _ Hbatch Hi) as (j & Hj & Hrecord).
  apply lookup_seq in Hj as [-> _]. cbn [Nat.add] in Hrecord.
  unfold derive_individual_key in Hrecord. rewrite derive_base_path_indices in Hrecord.
  apply bind_Ok in Hrecord as (derived_key & Hparent & Hrecord).
  apply bind_Ok in Hrecord as (final & Hfinal & Hrecord).
  apply call_Ok in Hfinal as (parent & -> & Hfinal).
  destruct final as [final_key|]; [|discriminate].
  exists parent, final_key. cbn in Hrecord. inversion Hrecord. auto.
Qed.

End SiblingFacts.

Lemma individual_keys_of_one_parent_witness :
  exists parent final_key,
    @derive_indices Standins.trails (Some [])
      [84 + 0x80000000; 1 + 0x80000000; 0 + 0x80000000; 0] = Ok (Some parent)
    /\ @ChildKey Standins.trails parent 1 = Ok (Some final_key).
Proof.
  destruct (@individual_keys_of_one_parent Standins.padding Standins.trails
              "fitness" 2 _ 1%nat _ eq_refl eq_refl)
    as (_ & parent & final_key & Hparent & Hfinal & _).
  exists parent, final_key. split; [exact Hparent | exact Hfinal].
Defined.

(** * More of the scripts *)

(** ** derive_keys.py: what a path string may look like *)

Section PathShapes.
Context `{Primitives} `{Bip32Utils}.

Lemma has_char_app (c : ascii) (s t : string) :
  has_char c (s +:+ t) = has_char c s || has_char c t.
Proof.
  induction s as [|a s IH]; [reflexivity|].
  change (has_char c (String a (s +:+ t)) = has_char c (String a s) || has_char c t).
  cbn [has_char]. rewrite IH, orb_assoc. reflexivity.
Qed.

(** The loop reads an element only through the index it stands for. *)
Lemma derive_elements_same_indices (parent : option BIP32Key) (es es' : list string) :
  Forall2 (fun e e' => path_index e = path_index e') es es' ->
  derive_elements parent es = derive_elements parent es'.
Proof.
  intros Hall. revert parent.
  induction Hall as [|e e' es es' He _ IH]; intros parent; [reflexivity|].
  cbn [derive_elements]. rewrite He.
  destruct (path_index e') as [index|err]; [|reflexivity]. cbn [Py.bind].
  destruct (Py.call parent _) as [child|err]; [apply IH | reflexivity].
Qed.

Lemma derive_xprv_same_indices (mnemonic_phrase : string) (testnet : bool)
    (es es' : list string) :
  es <> [] ->
  Forall (fun e => has_char "/" e = false) es ->
  Forall (fun e => has_char "/" e = false) es' ->
  Forall2 (fun e e' => path_index e = path_index e') es es' ->
  derive_xprv mnemonic_phrase ("m/" +:+ Py.join "/" es) testnet
  = derive_xprv mnemonic_phrase ("m/" +:+ Py.join "/" es') testnet.
Proof.
  intros Hne Hes Hes' Hall.
  assert (Hne' : es' <> []).
  { destruct Hall; [contradiction | discriminate]. }
  unfold derive_xprv. rewrite !(startswith_app "m/").
  change 2%nat with (String.length "m/"). rewrite !drop_first_app.
  rewrite (split_join _ _ Hne Hes), (split_join _ _ Hne' Hes').
  rewrite (derive_elements_same_indices _ _ _ Hall). reflexivity.
Qed.

(** Both marks put an element on the hardened branch, whatever stands
    before the mark. *)
Lemma path_index_marks (stem : string) :
  path_index (stem +:+ "'") = path_index (stem +:+ "h").
Proof.
  unfold path_index.
  rewrite (endswith_app stem "'"), (endswith_app stem "h"), orb_true_r.
  cbn [orb]. rewrite !drop_last_app. reflexivity.
Qed.

(** X4.  The apostrophe and the letter h are the same mark to
    [derive_xprv]: two paths under m/ whose elements differ only in that
    one writes an apostrophe where the other writes h give the same result,
    be it a key or an exception. *)
Theorem derive_xprv_marks_agree (mnemonic_phrase : string) (testnet : bool)
    (es es' : list string) :
  es <> [] ->
  Forall (fun e => has_char "/" e = false) es ->
  Forall2 same_up_to_mark es es' ->
  derive_xprv mnemonic_phrase ("m/" +:+ Py.join "/" es) testnet
  = derive_xprv mnemonic_phrase ("m/" +:+ Py.join "/" es') testnet.
Proof.
  intros Hne Hes Hall. apply derive_xprv_same_indices; [exact Hne | exact Hes | |].
  - clear Hne. induction Hall as [|e e' es es' Hmark _ IH]; [constructor|].
    inversion Hes as [|? ? He Hrest]; subst. constructor; [|apply IH, Hrest].
    destruct Hmark as [<- | (stem & -> & ->)]; [exact He|].
    rewrite has_char_app in He |- *. apply orb_false_iff in He as [Hstem _].
    rewrite Hstem. reflexivity.
  - clear Hne Hes. induction Hall as [|e e' es es' [-> | (stem & -> & ->)] _ IH];
      constructor; auto using path_index_marks.
Qed.

Lemma path_index_marked_decimal (d : string) :
  is_decimal d = true ->
  Z.of_nat (String.length d) <= Py.max_str_digits ->
  path_index (d +:+ "'") = Ok (decimal_value d + 0x80000000).
Proof.
  intros Hd Hlen. unfold path_index.
  rewrite (endswith_app d "'"). cbn [orb].
  rewrite drop_last_app, (int_decimal _ Hd Hlen). reflexivity.
Qed.

Lemma path_index_bare_decimal (d : string) :
  is_decimal d = true ->
  Z.of_nat (String.length d) <= Py.max_str_digits ->
  path_index d = Ok (decimal_value d).
Proof.
  intros Hd Hlen. unfold path_index.
  pose proof Hd as [_ Hdigits]%andb_true_iff.
  rewrite !endswith_digits by (try exact Hdigits; simpl; lia).
  cbn [orb]. apply int_decimal; assumption.
Qed.

(** X5.  [derive_xprv] checks no range: an element without a mark whose
    number is 2^31 or more is passed to [ChildKey] as it is, so it derives
    the very key the hardened element for that number less 2^31 derives,
    at any place of a path. *)
Theorem derive_xprv_large_element_is_hardened (mnemonic_phrase : string) (testnet : bool)
    (before after : list string) (d d' : string) :
  is_decimal d = true ->
  is_decimal d' = true ->
  Z.of_nat (String.length d) <= Py.max_str_digits ->
  Z.of_nat (String.length d') <= Py.max_str_digits ->
  decimal_value d = decimal_value d' + 2 ^ 31 ->
  Forall (fun e => has_char "/" e = false) (before ++ after) ->
  path_index d = path_index (d' +:+ "'")
  /\ derive_xprv mnemonic_phrase ("m/" +:+ Py.join "/" (before ++ d :: after)) testnet
     = derive_xprv mnemonic_phrase
         ("m/" +:+ Py.join "/" (before ++ (d' +:+ "'") :: after)) testnet.
Proof.
  intros Hd Hd' Hlen Hlen' Hvalue Hsep.
  assert (Hsame : path_index d = path_index (d' +:+ "'")).
  { rewrite (path_index_bare_decimal _ Hd Hlen), (path_index_marked_decimal _ Hd' Hlen').
    rewrite Hvalue. reflexivity. }
  split; [exact Hsame|].
  assert (Hdigit_sep : forall s, is_decimal s = true -> has_char "/" s = false).
  { intros s [_ Hs]%andb_true_iff. induction s as [|c s IH]; [reflexivity|].
    apply all_digits_cons in Hs as [[n Hn] Hs]. cbn [has_char].
    rewrite (digit_is_not c "/" n Hn) by (simpl; lia). apply IH, Hs. }
  apply Forall_app in Hsep as [Hbefore Hafter].
  apply derive_xprv_same_indices.
  - destruct before; discriminate.
  - apply Forall_app. split; [exact Hbefore|]. constructor; [auto | exact Hafter].
  - apply Forall_app. split; [exact Hbefore|]. constructor; [|exact Hafter].
    rewrite has_char_app, (Hdigit_sep _ Hd'). reflexivity.
  - apply Forall2_app; [apply Forall2_same_length_lookup_2; [reflexivity|]|].
    + intros i x y Hx Hy. rewrite Hx in Hy. inversion Hy. reflexivity.
    + constructor; [exact Hsame|].
      apply Forall2_same_length_lookup_2; [reflexivity|].
      intros i x y Hx Hy. rewrite Hx in Hy. inversion Hy. reflexivity.
Qed.

Lemma startswith_inv (s p : string) :
  Py.startswith s p = true -> s = p +:+ Py.drop_first (String.length p) s.
Proof.
  revert s. induction p as [|a p IH]; intros s Hs.
  - destruct s; reflexivity.
  - destruct s as [|b s]; [discriminate|]. cbn [Py.startswith] in Hs.
    apply andb_true_iff in Hs as [<-%Ascii.eqb_eq Hs].
    exact (f_equal (String a) (IH _ Hs)).
Qed.

(** A path that itself starts with m/ is no path suffix: behind the prefix
    its first element is the letter m, on which [int] raises, whatever the
    package behind [ChildKey]. *)
Lemma derive_xprv_doubled_prefix (mnemonic_phrase p : string) (testnet : bool) :
  Py.startswith p "m/" = true ->
  derive_xprv mnemonic_phrase ("m/" +:+ p) testnet = Raise ValueError.
Proof.
  intros Hp. apply startswith_inv in Hp.
  unfold derive_xprv. rewrite (startswith_app "m/"). change 2%nat with (String.length "m/").
  rewrite drop_first_app, Hp.
  change ("m/" +:+ Py.drop_first (String.length "m/") p)
    with ("m" +:+ String "/" (Py.drop_first (String.length "m/") p)).
  rewrite split_app_sep by reflexivity. reflexivity.
Qed.

Lemma split_not_nil (sep : ascii) (s : string) : Py.split sep s <> [].
Proof.
  destruct s as [|a s]; [discriminate|]. cbn [Py.split].
  destruct (Ascii.eqb a sep); [discriminate|]. destruct (Py.split sep s); discriminate.
Qed.

Lemma split_snoc_sep (sep : ascii) (s : string) :
  Py.split sep (s +:+ String sep EmptyString) = Py.split sep s ++ [EmptyString].
Proof.
  induction s as [|a s IH].
  - simpl. rewrite Ascii.eqb_refl. reflexivity.
  - change (Py.split sep (String a (s +:+ String sep EmptyString))
            = Py.split sep (String a s) ++ [EmptyString]).
    cbn [Py.split]. rewrite IH. destruct (Ascii.eqb a sep); [reflexivity|].
    pose proof (split_not_nil sep s). destruct (Py.split sep s); [contradiction | reflexivity].
Qed.

(** A key comes out of the loop only if every element stood for an index. *)
Lemma derive_elements_Ok_indices (parent derived : option BIP32Key) (es : list string) :
  derive_elements parent es = Ok derived ->
  Forall (fun e => exists index, path_index e = Ok index) es.
Proof.
  revert parent. induction es as [|e es IH]; intros parent Hok; [constructor|].
  cbn [derive_elements] in Hok.
  apply bind_Ok in Hok as (index & He & Hok).
  apply bind_Ok in Hok as (child & _ & Hok).
  constructor; [eauto | eapply IH, Hok].
Qed.

(** X6.  [derive_xprv] never returns a key for the empty path or for a path
    that ends in a slash (m/ alone among them): the element after the last
    slash is empty, and [int] refuses it. *)
Theorem derive_xprv_refuses_trailing_slash (mnemonic_phrase p : string) (testnet : bool) :
  p = EmptyString \/ Py.endswith p "/" = true ->
  exists err, derive_xprv mnemonic_phrase p testnet = Raise err.
Proof.
  intros Hp. unfold derive_xprv.
  set (q := if Py.startswith p "m/" then Py.drop_first 2 p else p).
  assert (Hq : q = EmptyString \/ Py.endswith q "/" = true).
  { subst q. destruct Hp as [-> | Hends]; [left; reflexivity|].
    destruct (Py.startswith p "m/") eqn:Hstart; [|right; exact Hends].
    apply startswith_inv in Hstart. change (String.length "m/") with 2%nat in Hstart.
    destruct (Py.drop_first 2 p) as [|c rest]; [left; reflexivity|].
    rewrite Hstart in Hends.
    right. cbn [Py.endswith] in Hends |- *.
    change (String.eqb "m/" "/") with false in Hends.
    destruct c, rest; exact Hends. }
  assert (Hempty : In EmptyString (Py.split "/" q)).
  { destruct Hq as [-> | Hends]; [left; reflexivity|].
    destruct (endswith_inv _ _ Hends) as [stem ->].
    rewrite split_snoc_sep. apply in_or_app. right. left. reflexivity. }
  destruct (derive_elements _ (Py.split "/" q)) as [derived|err] eqn:Hloop; [|eauto].
  apply derive_elements_Ok_indices in Hloop.
  rewrite Forall_forall in Hloop.
  apply list_elem_of_In, Hloop in Hempty as [index Hindex]. discriminate Hindex.
Qed.

End PathShapes.

Lemma derive_xprv_marks_agree_witness :
  @derive_xprv Standins.padding Standins.trails "fitness" "m/84'/1'/0" true
  = @derive_xprv Standins.padding Standins.trails "fitness" "m/84h/1'/0" true.
Proof.
  refine (@derive_xprv_marks_agree Standins.padding Standins.trails "fitness" true
            ["84'"; "1'"; "0"]%string ["84h"; "1'"; "0"]%string _ _ _).
  - discriminate.
  - repeat constructor.
  - constructor; [right; exists "84"%string; split; reflexivity|].
    repeat (constructor; [left; reflexivity|]). constructor.
Defined.

Lemma derive_xprv_large_element_is_hardened_witness :
  @derive_xprv Standins.padding Standins.trails "fitness" "m/2147483732/1'" true
  = @derive_xprv Standins.padding Standins.trails "fitness" "m/84'/1'" true.
Proof.
  refine (proj2 (@derive_xprv_large_element_is_hardened Standins.padding Standins.trails
                   "fitness" true [] ["1'"]%string "2147483732" "84" eq_refl eq_refl
                   _ _ eq_refl _)).
  - discriminate.
  - discriminate.
  - repeat constructor.
Defined.

Lemma derive_xprv_refuses_trailing_slash_witness :
  exists err, @derive_xprv Standins.padding Standins.trails "fitness" "m/84'/" true = Raise err.
Proof.
  exact (@derive_xprv_refuses_trailing_slash Standins.padding Standins.trails
           "fitness" "m/84'/" true (or_intror eq_refl)).
Defined.

(** ** misc/recovery/fix_keys.py: the shape of the WIF text *)

Section WifShape.
Context `{Primitives}.
Local Open Scope N_scope.
Import Base58.

(** The digits of a number between 58^k and 58^(k+1): k+1 of them, the
    first one the quotient by 58^k. *)
Lemma b58encode_int_loop_shape (k fuel : nat) (i : N) :
  58 ^ N.of_nat k <= i < 58 ^ N.of_nat (S k) ->
  i < 2 ^ N.of_nat fuel ->
  exists rest,
    b58encode_int_loop fuel i EmptyString = String (alphabet_at (i / 58 ^ N.of_nat k)) rest
    /\ String.length rest = k.
Proof.
  revert fuel i. induction k as [|k IH]; intros fuel i [Hlo Hhi] Hfuel.
  - change (58 ^ N.of_nat 0) with 1 in *. change (58 ^ N.of_nat 1) with 58 in Hhi.
    destruct fuel as [|fuel]; [simpl in Hfuel; lia|].
    rewrite b58encode_int_loop_step by lia.
    rewrite (N.div_small i 58), b58encode_int_loop_zero, N.div_1_r, N.mod_small by lia.
    exists EmptyString. split; reflexivity.
  - assert (Hsucc : forall n, 58 ^ N.of_nat (S n) = 58 * 58 ^ N.of_nat n)
      by (intros n; rewrite Nat2N.inj_succ; apply N.pow_succ_r').
    rewrite (Hsucc (S k)) in Hhi. rewrite (Hsucc k) in Hlo, Hhi.
    pose proof (N.pow_nonzero 58 (N.of_nat k) ltac:(lia)) as Hpos.
    destruct fuel as [|fuel]; [simpl in Hfuel; lia|].
    rewrite b58encode_int_loop_step by lia.
    destruct (IH fuel (i / 58)) as (rest & Hdigits & Hlen).
    + rewrite (Hsucc k). split.
      * apply N.div_le_lower_bound; lia.
      * apply N.Div0.div_lt_upper_bound. lia.
    + apply quotient_fits, Hfuel.
    + rewrite Hdigits, N.Div0.div_div, (Hsucc k).
      exists (rest +:+ String (alphabet_at (i mod 58)) EmptyString). split; [reflexivity|].
      rewrite string_length_app, Hlen. simpl. lia.
Qed.

(** The text of bytes that start with a byte other than zero is the digits
    of their number. *)
Lemma b58encode_no_pad (b : byte) (v : bytes) :
  b <> x00 -> b58encode (b :: v) = b58encode_int (int_from_bytes (b :: v)).
Proof.
  intros Hb. unfold b58encode. cbn [lstrip_byte].
  destruct (Byte.eqb b x00) eqn:Heq; [apply Byte.byte_dec_bl in Heq; contradiction|].
  rewrite Nat.sub_diag. reflexivity.
Qed.

(** X7.  The testnet WIF text of a private key is made of characters of
    the Base58 alphabet only: it holds no quote, space, slash or bracket,
    whatever the key and the digest. *)
Theorem wif_key_alphabet (private_key_bytes : bytes) :
  string_forall is_base58_char (wif_key private_key_bytes) = true
  /\ has_char "'" (wif_key private_key_bytes) = false
  /\ has_char " " (wif_key private_key_bytes) = false
  /\ has_char ")" (wif_key private_key_bytes) = false
  /\ has_char (ascii_of_nat 34) (wif_key private_key_bytes) = false.
Proof.
  assert (Hall : string_forall is_base58_char (wif_key private_key_bytes) = true)
    by apply b58encode_alphabet.
  assert (Hnone : forall c, is_base58_char c = false ->
                            has_char c (wif_key private_key_bytes) = false).
  { intros c Hc. induction (wif_key private_key_bytes) as [|a s IH]; [reflexivity|].
    cbn [string_forall has_char] in *. apply andb_true_iff in Hall as [Ha Hs].
    rewrite (IH Hs), orb_false_r. apply Ascii.eqb_neq. intros ->. congruence. }
  split; [exact Hall|]. repeat split; apply Hnone; reflexivity.
Qed.

(** X8.  Two private keys of one length never share their testnet WIF
    text. *)
Theorem wif_key_injective (a b : bytes) :
  length a = length b -> wif_key a = wif_key b -> a = b.
Proof.
  intros Hlen Hwif. apply (f_equal b58decode) in Hwif. unfold wif_key in Hwif.
  rewrite !b58decode_b58encode in Hwif. inversion Hwif as [Hbytes].
  rewrite <- !app_assoc in Hbytes. apply app_inj_1 in Hbytes as [Ha _]; [exact Ha | exact Hlen].
Qed.

Hypothesis sha256_size : forall data, length (sha256 data) = 32%nat.

(** X9.  For a private key of 32 bytes (and a SHA256 of 32 bytes), the
    testnet WIF text has 52 characters and starts with the letter c. *)
Theorem wif_key_shape (private_key_bytes : bytes) :
  length private_key_bytes = 32%nat ->
  exists rest,
    wif_key private_key_bytes = String "c" rest /\ String.length rest = 51%nat.
Proof.
  intros Hlen. unfold wif_key.
  set (extended_key := [xef] ++ private_key_bytes ++ [x01]).
  set (checksum := take 4 (sha256 (sha256 extended_key))).
  assert (Hchecksum : length checksum = 4%nat).
  { unfold checksum. rewrite length_take, sha256_size. reflexivity. }
  set (tail := private_key_bytes ++ [x01] ++ checksum).
  assert (Htail : length tail = 37%nat).
  { unfold tail. rewrite !length_app, Hlen, Hchecksum. reflexivity. }
  replace (extended_key ++ checksum) with (xef :: tail)
    by (unfold extended_key, tail; cbn [app]; rewrite <- !app_assoc; reflexivity).
  rewrite b58encode_no_pad by discriminate.
  pose proof (int_from_bytes_bound tail) as Hbound.
  pose proof (int_from_bytes_cons xef tail) as Hcons.
  rewrite Htail in Hbound, Hcons. change (Byte.to_N xef) with 239 in Hcons.
  set (acc := int_from_bytes (xef :: tail)) in *.
  set (t := int_from_bytes tail) in *.
  assert (H1 : 35 * 58 ^ 51 <= 239 * 256 ^ 37) by (apply N.leb_le; vm_compute; reflexivity).
  assert (H2 : 240 * 256 ^ 37 <= 36 * 58 ^ 51) by (apply N.leb_le; vm_compute; reflexivity).
  change (N.of_nat 37) with 37 in Hbound, Hcons.
  set (Q := 256 ^ 37) in *. set (P := 58 ^ 51) in *.
  assert (HP : 0 < P) by (apply N.ltb_lt; vm_compute; reflexivity).
  destruct (b58encode_int_loop_shape 51 (N.to_nat (N.size acc)) acc) as (rest & Hdigits & Hrest).
  - assert (H52 : 58 ^ N.of_nat 52 = 58 * P) by (vm_compute; reflexivity).
    rewrite H52. change (58 ^ N.of_nat 51) with P. lia.
  - apply size_fits.
  - exists rest. split; [|exact Hrest].
    unfold b58encode_int. rewrite Hdigits. change (58 ^ N.of_nat 51) with P.
    replace (acc / P) with 35; [reflexivity|].
    apply (N.div_unique acc P 35 (acc - 35 * P)); lia.
Qed.

End WifShape.

Lemma padding_sha256_size (data : bytes) : length (@sha256 Standins.padding data) = 32%nat.
Proof.
  simpl. unfold Standins.pad_to.
  rewrite length_take, length_app, repeat_length. lia.
Defined.

Lemma wif_key_injective_witness :
  repeat x07 32 = repeat x07 32.
Proof.
  exact (@wif_key_injective Standins.padding (repeat x07 32) (repeat x07 32) eq_refl eq_refl).
Defined.

Lemma wif_key_shape_witness :
  exists rest,
    @wif_key Standins.padding (repeat x07 32) = String "c" rest /\ String.length rest = 51%nat.
Proof.
  exact (@wif_key_shape Standins.padding padding_sha256_size (repeat x07 32) eq_refl).
Defined.

(** ** The batches of fix_keys.py, import_keys.py and create_descriptors.py *)

Section BatchShapes.
Context `{Primitives} `{Bip32Utils}.

Lemma to_uint_nonnil (n : nat) : Nat.to_uint n <> Decimal.Nil.
Proof.
  rewrite <- (Unsigned.of_to n) at 1. rewrite Unsigned.to_of. apply unorm_nonnil.
Qed.

Lemma str_inj (n m : nat) : Py.str n = Py.str m -> n = m.
Proof.
  unfold Py.str. intros Hstr. apply Unsigned.to_uint_inj.
  apply (f_equal NilZero.uint_of_string) in Hstr.
  rewrite !NilZero.usu in Hstr by apply to_uint_nonnil.
  inversion Hstr. reflexivity.
Qed.

Lemma string_app_inj (p s t : string) : p +:+ s = p +:+ t -> s = t.
Proof.
  induction p as [|a p IH]; intros Heq; [exact Heq|].
  apply IH. change (String a (p +:+ s) = String a (p +:+ t)) in Heq.
  inversion Heq. reflexivity.
Qed.

Lemma numbered_texts_distinct (prefix : string) (n : nat) :
  NoDup (map (fun i => prefix +:+ Py.str i) (Py.range n)).
Proof.
  assert (Hinj : Inj (=) (=) (fun i => prefix +:+ Py.str i)).
  { intros i j Heq. apply str_inj, (string_app_inj prefix), Heq. }
  change (NoDup ((fun i => prefix +:+ Py.str i) <$> seq 0 n)).
  apply (NoDup_fmap_2 _), NoDup_seq.
Qed.

Lemma attr_Ok {A B} (obj : option A) (attribute : A -> B) (b : B) :
  Py.attr obj attribute = Ok b -> exists a, obj = Some a /\ b = attribute a.
Proof. destruct obj as [a|]; simpl; [|discriminate]. intros Hb. inversion Hb. eauto. Qed.

(** What one turn of each loop has appended when it ends without an
    exception. *)
Lemma derive_testnet_key_inv (master_key : BIP32Key) (i : nat) (record : testnet_key) :
  derive_testnet_key master_key i = Ok record ->
  exists derived_key,
    derive_indices (Some master_key)
      [84 + 0x80000000; 1 + 0x80000000; 0 + 0x80000000; 0; Z.of_nat i] = Ok (Some derived_key)
    /\ record = {| tk_path := leaf_path i;
                   tk_privkey_wif := wif_key (PrivateKey derived_key);
                   tk_privkey_hex := Py.hex (PrivateKey derived_key);
                   tk_pubkey := Py.hex (PublicKey derived_key) |}.
Proof.
  unfold derive_testnet_key. intros Hrecord.
  apply bind_Ok in Hrecord as (derived & Hderived & Hrecord).
  apply bind_Ok in Hrecord as (raw & Hraw & Hrecord).
  apply attr_Ok in Hraw as (derived_key & -> & ->).
  rewrite fromhex_hex in Hrecord. cbn in Hrecord. inversion Hrecord. eauto.
Qed.

Lemma derive_key_with_descriptor_inv (master_key : BIP32Key) (i : nat) (d : descriptor) :
  derive_key_with_descriptor master_key i = Ok d ->
  exists derived_key,
    derive_indices (Some master_key)
      [84 + 0x80000000; 1 + 0x80000000; 0 + 0x80000000; 0; Z.of_nat i] = Ok (Some derived_key)
    /\ d = {| desc := "wpkh(" +:+ WalletImportFormat derived_key +:+ ")";
              timestamp := "now"; label := key_label i;
              active := true; watchonly := None |}.
Proof.
  unfold derive_key_with_descriptor. intros Hd.
  apply bind_Ok in Hd as (derived & Hderived & Hd).
  apply bind_Ok in Hd as (wif & Hwif & Hd).
  apply attr_Ok in Hwif as (derived_key & -> & ->).
  cbn in Hd. inversion Hd. eauto.
Qed.

Lemma derive_individual_key_inv (master_key : BIP32Key) (i : nat) (record : individual_key) :
  derive_individual_key master_key i = Ok record ->
  exists parent final_key,
    derive_indices (Some master_key)
      [84 + 0x80000000; 1 + 0x80000000; 0 + 0x80000000; 0] = Ok (Some parent)
    /\ ChildKey parent (Z.of_nat i) = Ok (Some final_key)
    /\ record = {| ik_path := leaf_path i;
                   ik_privkey_wif := WalletImportFormat final_key;
                   ik_pubkey := Py.hex (PublicKey final_key);
                   ik_address := Address final_key |}.
Proof.
  unfold derive_individual_key. rewrite derive_base_path_indices. intros Hrecord.
  apply bind_Ok in Hrecord as (derived & Hparent & Hrecord).
  apply bind_Ok in Hrecord as (final & Hfinal & Hrecord).
  apply call_Ok in Hfinal as (parent & -> & Hfinal).
  destruct final as [final_key|]; [|discriminate].
  cbn in Hrecord. inversion Hrecord. eauto 6.
Qed.

(** The fields of the records of a loop over [range(n)], read off turn by
    turn. *)
Lemma for_append_fields {B C} (body : nat -> result B) (field : B -> C) (expected : nat -> C)
    (n : nat) (out : list B) :
  (forall i b, body i = Ok b -> field b = expected i) ->
  Py.for_append body (Py.range n) = Ok out ->
  map field out = map expected (Py.range n).
Proof.
  intros Hfield Hout. apply for_append_inv in Hout.
  induction Hout as [|i b turns bs Hb _ IH]; [reflexivity|].
  cbn [map]. rewrite (Hfield _ _ Hb), IH. reflexivity.
Qed.

(** X10.  A batch that succeeds returns its records in the order of the
    indices: record i of fix_keys.py and of import_keys.py carries the path
    m/84'/1'/0'/0/i, descriptor i of create_descriptors.py the label
    specter_key_i, and no two records of a batch share a path or a label. *)
Theorem batch_paths_and_labels (mnemonic_phrase : string) (num_keys : nat) :
  (forall keys, derive_testnet_keys mnemonic_phrase num_keys = Ok keys ->
                map tk_path keys = map leaf_path (Py.range num_keys))
  /\ (forall records, derive_individual_keys mnemonic_phrase num_keys = Ok records ->
                      map ik_path records = map leaf_path (Py.range num_keys))
  /\ (forall descriptors,
        derive_keys_with_descriptors mnemonic_phrase num_keys = Ok descriptors ->
        map label descriptors = map key_label (Py.range num_keys))
  /\ NoDup (map leaf_path (Py.range num_keys))
  /\ NoDup (map key_label (Py.range num_keys)).
Proof.
  split; [|split; [|split; [|split]]].
  - intros keys. apply for_append_fields. intros i key Hkey.
    apply derive_testnet_key_inv in Hkey as (derived_key & _ & ->). reflexivity.
  - intros records. apply for_append_fields. intros i record Hrecord.
    apply derive_individual_key_inv in Hrecord as (parent & final_key & _ & _ & ->).
    reflexivity.
  - intros descriptors. apply for_append_fields. intros i d Hd.
    apply derive_key_with_descriptor_inv in Hd as (derived_key & _ & ->). reflexivity.
  - apply numbered_texts_distinct.
  - apply numbered_texts_distinct.
Qed.

(** The Base58 text of the key decodes to the key between version byte and
    compression flag. *)
Lemma fromWIF_wif_key (private_key_bytes : bytes) :
  length private_key_bytes = 32%nat ->
  fromWIF (wif_key private_key_bytes) = Ok private_key_bytes.
Proof.
  intros Hlen. unfold fromWIF, wif_key. rewrite b58decode_b58encode.
  cbn [Py.bind]. f_equal. unfold Py.slice. change (33 - 1)%nat with 32%nat.
  cbn [app drop]. rewrite <- app_assoc. apply take_app_length'. symmetry. exact Hlen.
Qed.

(** X11.  In every record fix_keys.py writes, the WIF text and the hex text
    are the same private key: decoding the one and reading the other give
    the same 32 bytes (for a package whose private keys are 32 bytes). *)
Theorem testnet_keys_wif_matches_hex (mnemonic_phrase : string) (num_keys : nat)
    (keys : list testnet_key) :
  (forall k, length (PrivateKey k) = 32%nat) ->
  derive_testnet_keys mnemonic_phrase num_keys = Ok keys ->
  Forall (fun key => fromWIF (tk_privkey_wif key) = Py.fromhex (tk_privkey_hex key)) keys.
Proof.
  intros Hsize Hkeys. apply for_append_inv in Hkeys.
  induction Hkeys as [|i key turns keys Hkey _ IH]; constructor; [|exact IH].
  apply derive_testnet_key_inv in Hkey as (derived_key & _ & ->). cbn [tk_privkey_wif tk_privkey_hex].
  rewrite fromhex_hex. apply fromWIF_wif_key, Hsize.
Qed.

(** X12.  The batches of fix_keys.py and create_descriptors.py are all or
    nothing as well: when key [i] is the first whose derivation raises, the
    exception ends the function and the records of the keys before it are
    not returned. *)
Theorem sibling_batches_all_or_nothing (mnemonic_phrase : string) (num_keys i : nat) (e : exn) :
  let master_key := set_network (fromEntropy (to_seed mnemonic_phrase "")) "testnet" in
  (i < num_keys)%nat ->
  ((forall j, (j < i)%nat -> exists record, derive_testnet_key master_key j = Ok record) ->
   derive_testnet_key master_key i = Raise e ->
   derive_testnet_keys mnemonic_phrase num_keys = Raise e)
  /\ ((forall j, (j < i)%nat -> exists d, derive_key_with_descriptor master_key j = Ok d) ->
      derive_key_with_descriptor master_key i = Raise e ->
      derive_keys_with_descriptors mnemonic_phrase num_keys = Raise e).
Proof.
  intros master_key Hi. split; intros Hbefore Hfail.
  - unfold derive_testnet_keys. fold master_key.
    rewrite (range_split _ _ Hi). apply for_append_first_failure; [|exact Hfail].
    apply Forall_forall. intros j Hj%elem_of_seq. apply Hbefore. lia.
  - unfold derive_keys_with_descriptors. fold master_key.
    rewrite (range_split _ _ Hi). apply for_append_first_failure; [|exact Hfail].
    apply Forall_forall. intros j Hj%elem_of_seq. apply Hbefore. lia.
Qed.

End BatchShapes.

Lemma to_bytes_length (len : nat) (n : N) : length (to_bytes len n) = len.
Proof.
  revert n. induction len as [|len IH]; intros n; [reflexivity|].
  cbn [to_bytes]. rewrite length_app, IH. simpl. lia.
Defined.

Lemma testnet_keys_wif_matches_hex_witness :
  Forall (fun key => fromWIF (tk_privkey_wif key) = Py.fromhex (tk_privkey_hex key))
    [{| tk_path := leaf_path 0;
        tk_privkey_wif :=
          @wif_key Standins.padding
            (@PrivateKey Standins.trails [2147483732; 2147483649; 2147483648; 0; 0]);
        tk_privkey_hex :=
          Py.hex (@PrivateKey Standins.trails [2147483732; 2147483649; 2147483648; 0; 0]);
        tk_pubkey :=
          Py.hex (@PublicKey Standins.trails [2147483732; 2147483649; 2147483648; 0; 0]) |}].
Proof.
  apply (@testnet_keys_wif_matches_hex Standins.padding Standins.trails "fitness" 1).
  - intros k. apply to_bytes_length.
  - vm_compute. reflexivity.
Defined.

Lemma sibling_batches_all_or_nothing_witness :
  @derive_testnet_keys Standins.padding Standins.no_second_leaf "fitness" 3
  = Raise AttributeError.
Proof.
  refine (proj1 (@sibling_batches_all_or_nothing Standins.padding Standins.no_second_leaf
                   "fitness" 3 1 AttributeError _) _ eq_refl).
  - lia.
  - intros j Hj. assert (j = 0%nat) as -> by lia. eexists. lazy. reflexivity.
Defined.

(** ** import_keys.py: the commands of a batch *)

Section CommandFacts.
Context `{Primitives} `{Bip32Utils}.

Lemma import_commands_from_length (start : nat) (keys : list individual_key) :
  length (import_commands_from start keys) = length keys.
Proof.
  revert start. induction keys as [|key keys IH]; intros start; [reflexivity|].
  cbn [import_commands_from length]. rewrite IH. reflexivity.
Qed.

Lemma import_commands_from_lookup (start i : nat) (keys : list individual_key)
    (key : individual_key) :
  keys !! i = Some key ->
  import_commands_from start keys !! i
  = Some (importprivkey_command (ik_privkey_wif key) (key_label (start + i))).
Proof.
  revert start i. induction keys as [|first keys IH]; intros start i Hi; [discriminate|].
  destruct i as [|i]; cbn [import_commands_from].
  - inversion Hi. rewrite Nat.add_0_r. reflexivity.
  - rewrite Nat.add_succ_r. exact (IH (S start) i Hi).
Qed.

(** X13.  The commands import_keys.py writes for a batch that succeeded:
    two more than there are keys, the creation of the wallet first, the
    rescan last, and between them, at place i+1, the import of the WIF text
    of the child with index i of the common parent, labelled
    specter_key_i. *)
Theorem import_commands_of_batch (mnemonic_phrase : string) (num_keys : nat)
    (records : list individual_key) :
  derive_individual_keys mnemonic_phrase num_keys = Ok records ->
  let commands := generate_bitcoin_cli_commands records in
  length commands = (num_keys + 2)%nat
  /\ commands !! 0%nat = Some createwallet_command
  /\ commands !! S num_keys = Some rescan_command
  /\ forall i, (i < num_keys)%nat ->
       exists parent final_key,
         derive_indices
           (Some (set_network (fromEntropy (to_seed mnemonic_phrase "")) "testnet"))
           [84 + 0x80000000; 1 + 0x80000000; 0 + 0x80000000; 0] = Ok (Some parent)
         /\ ChildKey parent (Z.of_nat i) = Ok (Some final_key)
         /\ commands !! S i
            = Some (importprivkey_command (WalletImportFormat final_key) (key_label i)).
Proof.
  intros Hbatch commands. apply for_append_inv in Hbatch.
  assert (Hlen : length records = num_keys).
  { rewrite <- (Forall2_length _ _ _ Hbatch). apply length_seq. }
  subst commands. unfold generate_bitcoin_cli_commands.
  split; [|split; [reflexivity|split]].
  - cbn [app length]. rewrite length_app, import_commands_from_length, Hlen.
    cbn [length]. lia.
  - change ((import_commands_from 0 records ++ [rescan_command]) !! num_keys
            = Some rescan_command).
    apply list_lookup_middle. rewrite import_commands_from_length, Hlen. reflexivity.
  - intros i Hi.
    assert (Hturn : Py.range num_keys !! i = Some i) by (apply lookup_seq; split; [reflexivity | exact Hi]).
    destruct (Forall2_lookup_l _ _ _ _ _ Hbatch Hturn) as (record & Hrecord & Hkey).
    apply derive_individual_key_inv in Hkey as (parent & final_key & Hparent & Hfinal & ->).
    exists parent, final_key. split; [exact Hparent|]. split; [exact Hfinal|].
    change ((import_commands_from 0 records ++ [rescan_command]) !! i
            = Some (importprivkey_command (WalletImportFormat final_key) (key_label i))).
    rewrite lookup_app_l by (rewrite import_commands_from_length, Hlen; exact Hi).
    rewrite (import_commands_from_lookup 0 i _ _ Hrecord). reflexivity.
Qed.

End CommandFacts.

Lemma import_commands_of_batch_witness :
  length (generate_bitcoin_cli_commands
            [{| ik_path := leaf_path 0;
                ik_privkey_wif := "wif/2147483732/2147483649/2147483648/0/0";
                ik_pubkey := "020000000000000000000000018000005480000001800000000000000000000000";
                ik_address := "tb1/2147483732/2147483649/2147483648/0/0" |}]) = 3%nat.
Proof.
  exact (proj1 (@import_commands_of_batch Standins.padding Standins.trails "fitness" 1 _ eq_refl)).
Defined.

(** ** create_valid_descriptors.py: which descriptors come back *)

Section DescriptorFacts.
Context `{Node}.

Lemma get_descriptor_with_checksum_Some (wif_key label : string) (d : descriptor) :
  get_descriptor_with_checksum wif_key label = Ok (Some d)
  <-> returncode (run (descriptor_query wif_key)) = 0
      /\ exists checksum,
           checksum_of (stdout (run (descriptor_query wif_key))) = Ok checksum
           /\ d = checked_descriptor wif_key label checksum.
Proof.
  unfold get_descriptor_with_checksum. fold (descriptor_query wif_key).
  destruct (Z.eqb_spec (returncode (run (descriptor_query wif_key))) 0) as [Hzero|Hcode].
  - split.
    + intros Hd. split; [exact Hzero|].
      destruct (checksum_of _) as [checksum|e]; [|discriminate].
      cbn in Hd. inversion Hd. eauto.
    + intros (_ & checksum & -> & ->). reflexivity.
  - split; [discriminate | intros [Hzero _]; contradiction].
Qed.

Lemma import_descriptors_from_inv (start : nat) (keys : list testnet_key)
    (descriptors : list descriptor) :
  import_descriptors_from start keys = Ok descriptors ->
  descriptors = omap appended (lookup_outcomes start keys).
Proof.
  revert start descriptors. induction keys as [|key keys IH]; intros start ds Hds.
  - inversion Hds. reflexivity.
  - cbn [import_descriptors_from] in Hds. rewrite lookup_outcomes_cons.
    apply bind_Ok in Hds as (d & Hd & Hds).
    apply bind_Ok in Hds as (rest & Hrest & Hds).
    inversion Hds; subst.
    change (omap appended (?o :: ?l))
      with (match appended o with
            | Some y => y :: omap appended l
            | None => omap appended l
            end).
    rewrite Hd, <- (IH _ _ Hrest). destruct d; reflexivity.
Qed.

(** The descriptors of the list are those of the keys whose lookup gave
    one, each with the label of its place among the keys. *)
Lemma import_descriptors_member (keys : list testnet_key) (descriptors : list descriptor)
    (d : descriptor) :
  create_import_descriptors keys = Ok descriptors ->
  d ∈ descriptors
  <-> exists j key,
        keys !! j = Some key
        /\ get_descriptor_with_checksum (tk_privkey_wif key) (key_label j) = Ok (Some d).
Proof.
  intros Hds. apply import_descriptors_from_inv in Hds. subst descriptors.
  rewrite list_elem_of_omap. split.
  - intros (outcome & Hin & Happ).
    apply elem_of_lookup_imap_1 in Hin as (j & key & -> & Hj).
    exists j, key. split; [exact Hj|]. cbn [Nat.add] in Happ.
    destruct (get_descriptor_with_checksum _ _) as [[d'|]|e]; try discriminate.
    cbn in Happ. inversion Happ. reflexivity.
  - intros (j & key & Hj & Hd). eexists. split.
    + apply (elem_of_lookup_imap_2 _ _ _ _ Hj).
    + cbn [Nat.add]. unfold key_label in Hd. rewrite Hd. reflexivity.
Qed.

Lemma omap_length_le {A B} (f : A -> option B) (l : list A) :
  (length (omap f l) <= length l)%nat.
Proof.
  induction l as [|x l IH]; [reflexivity|].
  change (omap f (x :: l))
    with (match f x with
          | Some y => y :: omap f l
          | None => omap f l
          end).
  destruct (f x); cbn [length]; lia.
Qed.

(** X14.  What [create_import_descriptors] returns, when it returns: a
    descriptor for exactly those keys the node answered with return code 0,
    never more descriptors than keys; the descriptor of the key at place j
    is wpkh(WIF)#checksum with the checksum the node gave, labelled
    specter_key_j, so a label keeps the place of its key in the file even
    when keys before it were left out. *)
Theorem import_descriptors_exact (keys : list testnet_key) (descriptors : list descriptor) :
  create_import_descriptors keys = Ok descriptors ->
  (length descriptors <= length keys)%nat
  /\ forall d,
       d ∈ descriptors
       <-> exists j key checksum,
             keys !! j = Some key
             /\ returncode (run (descriptor_query (tk_privkey_wif key))) = 0
             /\ checksum_of (stdout (run (descriptor_query (tk_privkey_wif key)))) = Ok checksum
             /\ d = checked_descriptor (tk_privkey_wif key) (key_label j) checksum.
Proof.
  intros Hds. split.
  - rewrite (import_descriptors_from_inv _ _ _ Hds).
    etransitivity; [apply omap_length_le|]. unfold lookup_outcomes.
    rewrite length_imap. reflexivity.
  - intros d. rewrite (import_descriptors_member _ _ _ Hds). split.
    + intros (j & key & Hj & Hd).
      apply get_descriptor_with_checksum_Some in Hd as (Hcode & checksum & Hsum & ->).
      exists j, key, checksum. auto.
    + intros (j & key & checksum & Hj & Hcode & Hsum & ->).
      exists j, key. split; [exact Hj|].
      apply get_descriptor_with_checksum_Some. eauto.
Qed.

Lemma import_descriptors_from_raises (start : nat) (before after : list testnet_key)
    (key : testnet_key) (e : exn) :
  Forall (fun outcome => exists d, outcome = Ok d) (lookup_outcomes start before) ->
  get_descriptor_with_checksum (tk_privkey_wif key) (key_label (start + length before))
  = Raise e ->
  import_descriptors_from start (before ++ key :: after) = Raise e.
Proof.
  revert start. induction before as [|first before IH]; intros start Hbefore Hkey.
  - cbn [app length import_descriptors_from] in *. rewrite Nat.add_0_r in Hkey.
    unfold key_label in Hkey. rewrite Hkey. reflexivity.
  - rewrite lookup_outcomes_cons in Hbefore.
    inversion Hbefore as [|? ? [d Hd] Hrest]; subst.
    cbn [app import_descriptors_from]. rewrite Hd. cbn [Py.bind].
    rewrite (IH (S start) Hrest); [reflexivity|].
    cbn [length] in Hkey. rewrite Nat.add_succ_r in Hkey. exact Hkey.
Qed.

(** X15.  An answer the script cannot read ends the whole batch: when the
    node returns code 0 for a key and the text it printed is no JSON object
    with a checksum, the exception of the reader leaves
    [create_import_descriptors], and the descriptors of the keys before are
    not returned (a non-zero return code, by contrast, only leaves that key
    out). *)
Theorem unreadable_answer_ends_batch (before after : list testnet_key)
    (key : testnet_key) (e : exn) :
  Forall (fun outcome => exists d, outcome = Ok d) (lookup_outcomes 0 before) ->
  returncode (run (descriptor_query (tk_privkey_wif key))) = 0 ->
  checksum_of (stdout (run (descriptor_query (tk_privkey_wif key)))) = Raise e ->
  create_import_descriptors (before ++ key :: after) = Raise e.
Proof.
  intros Hbefore Hcode Hsum. apply import_descriptors_from_raises; [exact Hbefore|].
  unfold get_descriptor_with_checksum. fold (descriptor_query (tk_privkey_wif key)).
  rewrite Hcode, Hsum. reflexivity.
Qed.

Context `{Primitives} `{Bip32Utils}.

(** X16.  fix_keys.py followed by create_valid_descriptors.py: every
    descriptor that comes back belongs to one index i of the batch; it
    wraps the testnet WIF text of the private key derived at
    m/84'/1'/0'/0/i and is labelled specter_key_i. *)
Theorem descriptors_of_testnet_keys (mnemonic_phrase : string) (num_keys : nat)
    (keys : list testnet_key) (descriptors : list descriptor) (d : descriptor) :
  derive_testnet_keys mnemonic_phrase num_keys = Ok keys ->
  create_import_descriptors keys = Ok descriptors ->
  d ∈ descriptors ->
  exists i derived_key checksum,
    (i < num_keys)%nat
    /\ derive_indices
         (Some (set_network (fromEntropy (to_seed mnemonic_phrase "")) "testnet"))
         [84 + 0x80000000; 1 + 0x80000000; 0 + 0x80000000; 0; Z.of_nat i]
       = Ok (Some derived_key)
    /\ d = checked_descriptor (toWIF (PrivateKey derived_key) test true)
             (key_label i) checksum.
Proof.
  intros Hkeys Hds Hd. apply for_append_inv in Hkeys.
  apply (import_descriptors_member _ _ _ Hds) in Hd as (i & key & Hi & Hd).
  apply get_descriptor_with_checksum_Some in Hd as (_ & checksum & _ & ->).
  destruct (Forall2_lookup_r _ _ _ _ _ Hkeys Hi) as (j & Hj & Hkey).
  apply lookup_seq in Hj as [-> Hlt]. cbn [Nat.add] in Hkey.
  apply derive_testnet_key_inv in Hkey as (derived_key & Hderived & ->).
  exists i, derived_key, checksum. auto.
Qed.

End DescriptorFacts.

Lemma import_descriptors_exact_witness :
  (length [checked_descriptor "cB" (key_label 1) "abcdefgh"] <= 2)%nat.
Proof.
  exact (proj1 (@import_descriptors_exact (Standins.one_descriptor_node "cB")
                  [Standins.sample_key "cA"; Standins.sample_key "cB"] _ eq_refl)).
Defined.

Lemma unreadable_answer_ends_batch_witness :
  @create_import_descriptors Standins.garbled_node [Standins.sample_key "cA"]
  = Raise ValueError.
Proof.
  exact (@unreadable_answer_ends_batch Standins.garbled_node [] [] (Standins.sample_key "cA")
           ValueError (List.Forall_nil _) eq_refl eq_refl).
Defined.

Lemma descriptors_of_testnet_keys_witness :
  exists i derived_key checksum,
    (i < 1)%nat
    /\ @derive_indices Standins.trails
         (Some (set_network (fromEntropy (@to_seed Standins.padding "fitness" "")) "testnet"))
         [84 + 0x80000000; 1 + 0x80000000; 0 + 0x80000000; 0; Z.of_nat i]
       = Ok (Some derived_key)
    /\ checked_descriptor
         (@wif_key Standins.padding
            (@PrivateKey Standins.trails [2147483732; 2147483649; 2147483648; 0; 0]))
         (key_label 0) "abcdefgh"
       = checked_descriptor (@toWIF Standins.padding (PrivateKey derived_key) test true)
           (key_label i) checksum.
Proof.
  apply (@descriptors_of_testnet_keys Standins.agreeable_node
           Standins.padding Standins.trails "fitness" 1
           [{| tk_path := leaf_path 0;
               tk_privkey_wif :=
                 @wif_key Standins.padding
                   (@PrivateKey Standins.trails [2147483732; 2147483649; 2147483648; 0; 0]);
               tk_privkey_hex :=
                 Py.hex (@PrivateKey Standins.trails [2147483732; 2147483649; 2147483648; 0; 0]);
               tk_pubkey :=
                 Py.hex (@PublicKey Standins.trails [2147483732; 2147483649; 2147483648; 0; 0]) |}]
           [checked_descriptor
              (@wif_key Standins.padding
                 (@PrivateKey Standins.trails [2147483732; 2147483649; 2147483648; 0; 0]))
              (key_label 0) "abcdefgh"]).
  - vm_compute. reflexivity.
  - vm_compute. reflexivity.
  - apply list_elem_of_here.
Defined.
